(** * License server: validation and binding state machine

    A shallow embedding of the SQLite-backed license server (the Express
    application with the [/generate], [/activate], [/renew], [/deactivate],
    [/info], [/validate] and [/wix/order] routes) and the properties of its
    handlers.

    Conventions of the model.
    - The [licenses] table has a UNIQUE constraint on [key]; it is a finite
      map from the key to the row.  The PRIMARY KEY constraint on [id] is
      checked on every INSERT.
    - A timestamp is the number of milliseconds since the epoch that the
      JavaScript [Date] holds.  The ISO-8601 text of [toISOString] stored in
      the table is an injective encoding of that number, read back by
      [new Date(text)]; the model keeps the number.
    - A JavaScript string is a string of bytes, of which the ASCII ones
      stand for themselves.  [toUpperCase], [trim] and [parseInt] are
      defined on ASCII text; on other text, and on numbers beyond the safe
      integers, they are the built-in functions, whose behaviour there is a
      parameter of the model ([Js.Builtins]).
    - Arithmetic on timestamps is exact: the sums the handlers compute are
      integers that a JavaScript number holds exactly whenever the result is
      a valid date, for a clock within the range of valid dates of
      ordinary use.
    - What a handler reads from outside (the clock, the random generator,
      the UUID generator) comes from a [World], one per request; the n-th
      reading of the clock within the request is [Date_now w n]. *)

From Stdlib Require Import ZArith String Ascii List Bool Lia DecimalString.
From Stdlib.Strings Require Import Byte.
From stdpp Require Import gmap strings list fin_maps.

Local Open Scope string_scope.
Local Open Scope Z_scope.

(** ** JavaScript values and string primitives *)

Module Js.

(** A JSON value as [body-parser] delivers it; numbers are the integral
    ones.  An absent property ([undefined]) is [None] at the use site. *)
Inductive jsval :=
| JNull
| JBool (b : bool)
| JNum (n : Z)
| JStr (s : string).

(** Truthiness of an optional string: [undefined], [null] and [''] are
    falsy. *)
Definition truthy (o : option string) : bool :=
  match o with
  | Some s => negb (String.eqb s "")
  | None => false
  end.

(** [a || b] on optional strings, and [a || 'text']. *)
Definition or_else (a b : option string) : option string :=
  if truthy a then a else b.

Definition or_text (a : option string) (b : string) : string :=
  if truthy a then default b a else b.

(** [list.includes(s)] *)
Definition includes (l : list string) (s : string) : bool :=
  existsb (String.eqb s) l.

(** The built-in functions of the language depend on tables that are not
    part of the application: the Unicode case mapping and white space, and
    the conversion between numbers and text beyond the integers that a
    number holds exactly.  Their behaviour there is taken as given:
    - [toUpperCase_beyond_ascii], [trim_beyond_ascii] and
      [parseInt_beyond_ascii] are [toUpperCase()], [trim()] and
      [parseInt(_, 10)] on a text with a character outside ASCII;
    - [Number_beyond_safe] is the number that [parseInt] gives for decimal
      digits whose value is beyond [MAX_SAFE_INTEGER] (the nearest double;
      [None] when it is an infinity);
    - [ToString_beyond_safe] is [String(n)] for a number beyond
      [MAX_SAFE_INTEGER] (rounded digits, exponent form from 1e21 on).
    On ASCII text and on the safe integers the functions are defined
    below. *)
Record Builtins := mkBuiltins {
  toUpperCase_beyond_ascii : string → string;
  trim_beyond_ascii : string → string;
  parseInt_beyond_ascii : string → option Z;
  Number_beyond_safe : Z → option Z;
  ToString_beyond_safe : Z → string
}.

Definition MAX_SAFE_INTEGER : Z := 9007199254740991.

Definition is_safe (n : Z) : bool := (Z.abs n <=? MAX_SAFE_INTEGER)%Z.

Definition is_ascii (c : ascii) : bool := (N_of_ascii c <? 128)%N.

Fixpoint ascii_text (s : string) : bool :=
  match s with
  | EmptyString => true
  | String c s' => is_ascii c && ascii_text s'
  end.

(** Upper case of an ASCII character. *)
Definition upper_ascii (c : ascii) : ascii :=
  let n := N_of_ascii c in
  if ((97 <=? n) && (n <=? 122))%N then ascii_of_N (n - 32) else c.

Fixpoint upper_text (s : string) : string :=
  match s with
  | EmptyString => EmptyString
  | String c s' => String (upper_ascii c) (upper_text s')
  end.

(** The white space of ASCII: TAB, LF, VT, FF, CR, SP. *)
Definition is_space (c : ascii) : bool :=
  let n := N_of_ascii c in
  (((9 <=? n) && (n <=? 13)) || (n =? 32))%N.

Fixpoint trimStart (s : string) : string :=
  match s with
  | EmptyString => EmptyString
  | String c s' => if is_space c then trimStart s' else s
  end.

Fixpoint rev_string (acc s : string) : string :=
  match s with
  | EmptyString => acc
  | String c s' => rev_string (String c acc) s'
  end.

Definition trim_text (s : string) : string :=
  rev_string "" (trimStart (rev_string "" (trimStart s))).

(** [s.split(sep)[0]]: the text before the first separator. *)
Fixpoint split_head (sep : ascii) (s : string) : string :=
  match s with
  | EmptyString => EmptyString
  | String c s' => if Ascii.eqb c sep then EmptyString else String c (split_head sep s')
  end.

Definition startsWith (s p : string) : bool := String.prefix p s.

Fixpoint drop_chars (n : nat) (s : string) : string :=
  match n, s with
  | O, _ => s
  | S _, EmptyString => EmptyString
  | S n', String _ s' => drop_chars n' s'
  end.

(** [s.replace(pat, rep)] with a string pattern: the first occurrence. *)
Fixpoint replace (pat rep s : string) : string :=
  if String.prefix pat s then rep +:+ drop_chars (String.length pat) s
  else match s with
       | EmptyString => EmptyString
       | String c s' => String c (replace pat rep s')
       end.

(** [buf.toString('hex')] *)
Definition hex_digit (n : N) : ascii :=
  if (n <? 10)%N then ascii_of_N (48 + n) else ascii_of_N (87 + n).

Fixpoint hex (bs : list byte) : string :=
  match bs with
  | [] => EmptyString
  | b :: bs' =>
      let n := Byte.to_N b in
      String (hex_digit (n / 16)) (String (hex_digit (n mod 16)) (hex bs'))
  end.

(** The integer that an ASCII text starts with: leading white space, an
    optional sign, then the longest run of decimal digits; [None] when there
    is no digit. *)
Definition digit_of (c : ascii) : option Z :=
  let n := N_of_ascii c in
  if ((48 <=? n) && (n <=? 57))%N then Some (Z.of_N (n - 48)) else None.

Fixpoint digits (acc : option Z) (s : string) : option Z :=
  match s with
  | EmptyString => acc
  | String c s' =>
      match digit_of c with
      | Some d => digits (Some (10 * default 0 acc + d)) s'
      | None => acc
      end
  end.

Definition leading_integer (s : string) : option Z :=
  match trimStart s with
  | String "-" s' => Z.opp <$> digits None s'
  | String "+" s' => digits None s'
  | s' => digits None s'
  end.

Section Builtin.

Variable js : Builtins.

(** [s.toUpperCase()] *)
Definition toUpperCase (s : string) : string :=
  if ascii_text s then upper_text s else toUpperCase_beyond_ascii js s.

(** [s.trim()] *)
Definition trim (s : string) : string :=
  if ascii_text s then trim_text s else trim_beyond_ascii js s.

(** The number of an integer value. *)
Definition Number (v : Z) : option Z :=
  if is_safe v then Some v else Number_beyond_safe js v.

(** [parseInt(text, 10)]; [None] is NaN or an infinity, neither of which
    gives a valid date. *)
Definition parseInt_text (s : string) : option Z :=
  if ascii_text s then leading_integer s ≫= Number
  else parseInt_beyond_ascii js s.

(** [String(v)] for the values of [jsval]. *)
Definition ToString (v : jsval) : string :=
  match v with
  | JNull => "null"
  | JBool true => "true"
  | JBool false => "false"
  | JNum n =>
      if is_safe n then NilZero.string_of_int (Z.to_int n)
      else ToString_beyond_safe js n
  | JStr s => s
  end.

Definition parseInt (v : jsval) : option Z := parseInt_text (ToString v).

End Builtin.

(** A [Date] holds a time value within 8.64e15 ms of the epoch, or is
    invalid; [toISOString] throws a RangeError on an invalid one. *)
Definition max_time : Z := 8640000000000000.

Definition toISOString (ms : option Z) : option Z :=
  match ms with
  | Some t => if (Z.abs t <=? max_time)%Z then Some t else None
  | None => None
  end.

End Js.

(** ** The [licenses] table *)

Record Row := mkRow {
  id : string;
  key : string;
  tier : string;
  owner_email : option string;
  created_at : Z;
  expires_at : option Z;
  active : bool;
  bound_ip : option string;
  last_seen_ip : option string;
  last_validated : option Z;
  meta : option string
}.

Abbreviation Store := (gmap string Row).

Definition set_active (a : bool) (r : Row) : Row :=
  mkRow (id r) (key r) (tier r) (owner_email r) (created_at r) (expires_at r)
        a (bound_ip r) (last_seen_ip r) (last_validated r) (meta r).

Definition set_expires_at (e : option Z) (r : Row) : Row :=
  mkRow (id r) (key r) (tier r) (owner_email r) (created_at r) e
        (active r) (bound_ip r) (last_seen_ip r) (last_validated r) (meta r).

Definition set_owner_email (o : option string) (r : Row) : Row :=
  mkRow (id r) (key r) (tier r) o (created_at r) (expires_at r)
        (active r) (bound_ip r) (last_seen_ip r) (last_validated r) (meta r).

Definition set_bound_ip (b : option string) (r : Row) : Row :=
  mkRow (id r) (key r) (tier r) (owner_email r) (created_at r) (expires_at r)
        (active r) b (last_seen_ip r) (last_validated r) (meta r).

Definition set_last_seen (ip : option string) (t : option Z) (r : Row) : Row :=
  mkRow (id r) (key r) (tier r) (owner_email r) (created_at r) (expires_at r)
        (active r) (bound_ip r) ip t (meta r).

Module Db.

(** [SELECT * FROM licenses WHERE key = ?] *)
Definition select (k : string) (db : Store) : option Row := db !! k.

(** [UPDATE licenses SET ... WHERE key = ?]: no row, no change. *)
Definition update (f : Row → Row) (k : string) (db : Store) : Store :=
  alter f k db.

Definition id_taken (i : string) (db : Store) : bool :=
  existsb (λ kr, String.eqb (id kr.2) i) (map_to_list db).

(** [INSERT INTO licenses (id, key, tier, owner_email, created_at,
    expires_at, active) VALUES (?, ?, ?, ?, ?, ?, 1)]; [None] is the
    SqliteError of a violated UNIQUE or PRIMARY KEY constraint. *)
Definition insert (i k t : string) (email : option string)
    (created expires : Z) (db : Store) : option Store :=
  if bool_decide (is_Some (db !! k)) || id_taken i db then None
  else Some (<[k := mkRow i k t email created (Some expires) true
                        None None None None]> db).

End Db.

(** ** Requests, responses and the outside world *)

Record Config := mkConfig {
  ADMIN_TOKEN : string;
  BIND_IP_ON_FIRST_VALIDATE : bool;
  WIX_SHARED_SECRET : string
}.

(** What one request reads from outside: the successive readings of the
    clock, the successive draws of [crypto.randomBytes(12)] and of
    [uuidv4()]. *)
Record World := mkWorld {
  Date_now : nat → Z;
  randomBytes : nat → list byte;
  uuidv4 : nat → string
}.

Record Request := mkRequest {
  x_admin_token : option string;
  x_client_ip : option string;
  x_forwarded_for : option string;
  x_webhook_secret : option string;
  req_ip : option string;
  remoteAddress : option string;
  query_license : option string;
  query_tier : option string;
  query_email : option string;
  query_days : option string;
  body_license : option string;
  body_days : option Js.jsval;
  body_owner_email : option string;
  body_email : option string;
  body_productName : option string
}.

Inductive Body :=
| Error (error : string)
| Decision (valid : bool) (reason : string)
| IpMismatch (bound incomingIp : string)
| Valid (license tier' : string) (email : option string)
        (expires : option Z) (bound : string)
| Generated (license tierName : string) (expiresAt generatedAt : Z)
            (email : option string)
| Activated (license : string) (created : bool) (expiresAt : Z)
| Renewed (license : string) (expiresAt : Z)
| Deactivated (license : string)
| Info (id' key' tier' : string) (email : option string) (created : Z)
       (expires : option Z) (active' : bool) (bound last_seen : option string)
       (last_validated' : option Z)
| Running
| WixOrder (license email tierName : string) (expiresAt : Z).

Record Response := mkResponse { status : Z; body : Body }.

(** [res.json(b)] answers with status 200. *)
Definition json (b : Body) : Response := mkResponse 200 b.

(** The [valid] and [reason] properties of a response body, when it has
    them. *)
Definition body_valid (b : Body) : option bool :=
  match b with
  | Decision v _ => Some v
  | IpMismatch _ _ => Some false
  | Valid _ _ _ _ _ => Some true
  | _ => None
  end.

Definition body_reason (b : Body) : option string :=
  match b with
  | Decision _ r => Some r
  | IpMismatch _ _ => Some "ip_mismatch"
  | _ => None
  end.

(** ** The handlers *)

Section Handlers.

Variable cfg : Config.
Variable js : Js.Builtins.

(** The [requireAdmin] middleware: [true] lets the request through,
    otherwise the answer is 401. *)
Definition requireAdmin (req : Request) : bool :=
  let token := x_admin_token req in
  Js.truthy token && String.eqb (default "" token) (ADMIN_TOKEN cfg).

Definition unauthorized : Response := mkResponse 401 (Error "unauthorized").
Definition server_error : Response := mkResponse 500 (Error "server_error").

Definition makeKey (tierChar : string) (bytes : list byte) : string :=
  let rand := Js.toUpperCase js (Js.hex bytes) in
  tierChar +:+ "-" +:+ rand.

Definition getRequestIP (req : Request) : string :=
  let forwarded := Js.or_else (x_client_ip req) (x_forwarded_for req) in
  if Js.truthy forwarded then Js.trim js (Js.split_head "," (default "" forwarded))
  else
    let ip := Js.or_text (Js.or_else (req_ip req) (remoteAddress req)) "" in
    if Js.startsWith ip "::ffff:" then Js.replace "::ffff:" "" ip else ip.

(** [new Date(Date.now() + days * 86400000).toISOString()]; [None] is the
    RangeError of an invalid date. *)
Definition expiry (now : Z) (days : option Z) : option Z :=
  Js.toISOString ((λ d, now + d * 86400000) <$> days).

Definition tierName (t : string) : string :=
  if String.eqb t "A" then "Aegis"
  else if String.eqb t "G" then "Guardian" else "Sentinel".

(** [new Date(row.expires_at) < new Date()], guarded by
    [row.expires_at &&]. *)
Definition expired (row : Row) (now : Z) : bool :=
  match expires_at row with
  | Some e => (e <? now)%Z
  | None => false
  end.

(** GET /generate *)
Definition generate (w : World) (req : Request) (db : Store) : Store * Response :=
  if negb (requireAdmin req) then (db, unauthorized) else
  let tier := Js.toUpperCase js (Js.or_text (query_tier req) "S") in
  if negb (Js.includes ["S"; "G"; "A"] tier) then
    (db, mkResponse 400 (Error "invalid tier"))
  else
    let email := Js.or_else (query_email req) None in
    let days := Js.parseInt_text js (Js.or_text (query_days req) "30") in
    match expiry (Date_now w 0) days with
    | None => (db, server_error)
    | Some expiresAt =>
        let key := makeKey tier (randomBytes w 0) in
        let id := uuidv4 w 0 in
        let createdAt := Date_now w 1 in
        match Db.insert id key tier email createdAt expiresAt db with
        | None => (db, server_error)
        | Some db' =>
            (db', json (Generated key (tierName tier) expiresAt createdAt email))
        end
    end.

(** POST /activate *)
Definition activate (w : World) (req : Request) (db : Store) : Store * Response :=
  if negb (requireAdmin req) then (db, unauthorized) else
  let days := default (Js.JNum 30) (body_days req) in
  let owner_email := body_owner_email req in
  if negb (Js.truthy (body_license req)) then
    (db, mkResponse 400 (Error "license required"))
  else
    let license := default "" (body_license req) in
    match expiry (Date_now w 0) (Js.parseInt js days) with
    | None => (db, server_error)
    | Some expiresAt =>
        let now := Date_now w 1 in
        match Db.select license db with
        | None =>
            let id := uuidv4 w 0 in
            match Db.insert id license "S" owner_email now expiresAt db with
            | None => (db, server_error)
            | Some db' => (db', json (Activated license true expiresAt))
            end
        | Some _ =>
            (Db.update (λ r, set_owner_email owner_email
                               (set_expires_at (Some expiresAt)
                                  (set_active true r))) license db,
             json (Activated license false expiresAt))
        end
    end.

(** POST /renew *)
Definition renew (w : World) (req : Request) (db : Store) : Store * Response :=
  if negb (requireAdmin req) then (db, unauthorized) else
  let days := default (Js.JNum 30) (body_days req) in
  if negb (Js.truthy (body_license req)) then
    (db, mkResponse 400 (Error "license required"))
  else
    let license := default "" (body_license req) in
    match Db.select license db with
    | None => (db, mkResponse 404 (Error "not_found"))
    | Some _ =>
        match expiry (Date_now w 0) (Js.parseInt js days) with
        | None => (db, server_error)
        | Some expiresAt =>
            (Db.update (λ r, set_active true
                               (set_expires_at (Some expiresAt) r)) license db,
             json (Renewed license expiresAt))
        end
    end.

(** POST /deactivate *)
Definition deactivate (req : Request) (db : Store) : Store * Response :=
  if negb (requireAdmin req) then (db, unauthorized) else
  if negb (Js.truthy (body_license req)) then
    (db, mkResponse 400 (Error "license required"))
  else
    let license := default "" (body_license req) in
    (Db.update (set_active false) license db, json (Deactivated license)).

(** GET /info *)
Definition info (req : Request) (db : Store) : Store * Response :=
  if negb (Js.truthy (query_license req)) then
    (db, mkResponse 400 (Error "license required"))
  else
    let license := default "" (query_license req) in
    match Db.select license db with
    | None => (db, mkResponse 404 (Error "not_found"))
    | Some row =>
        (db, json (Info (id row) (key row) (tier row) (owner_email row)
                        (created_at row) (expires_at row) (active row)
                        (bound_ip row) (last_seen_ip row) (last_validated row)))
    end.

(** GET /validate *)
Definition validate (w : World) (req : Request) (db : Store) : Store * Response :=
  if negb (Js.truthy (query_license req)) then
    (db, mkResponse 400 (Decision false "license required"))
  else
    let license := default "" (query_license req) in
    let incomingIp := getRequestIP req in
    let now := Date_now w 0 in
    match Db.select license db with
    | None => (db, mkResponse 404 (Decision false "not_found"))
    | Some row =>
        if negb (active row) then (db, json (Decision false "deactivated"))
        else if expired row (Date_now w 1) then
          (Db.update (set_active false) license db,
           json (Decision false "expired"))
        else
          let finish (db1 : Store) :=
            (Db.update (set_last_seen (Some incomingIp) (Some now)) license db1,
             json (Valid (key row) (tier row) (owner_email row) (expires_at row)
                         (Js.or_text (bound_ip row) incomingIp))) in
          if Js.truthy (bound_ip row) then
            if negb (String.eqb (default "" (bound_ip row)) incomingIp) then
              (db, json (IpMismatch (default "" (bound_ip row)) incomingIp))
            else finish db
          else
            if BIND_IP_ON_FIRST_VALIDATE cfg then
              finish (Db.update (set_bound_ip (Some incomingIp)) license db)
            else finish db
    end.

(** GET / *)
Definition root (db : Store) : Store * Response := (db, json Running).

(** POST /wix/order *)
Definition wix_order (w : World) (req : Request) (db : Store) : Store * Response :=
  let reqSecret := Js.or_text (x_webhook_secret req) "" in
  if negb (String.eqb reqSecret (WIX_SHARED_SECRET cfg)) then (db, unauthorized)
  else if negb (Js.truthy (body_email req)) || negb (Js.truthy (body_productName req)) then
    (db, mkResponse 400 (Error "email and productName required"))
  else
    let email := default "" (body_email req) in
    let productName := default "" (body_productName req) in
    let tier : option string := None in
    let tier := if String.eqb productName "Sentinel" then Some "S" else tier in
    let tier := if String.eqb productName "Guardian" then Some "G" else tier in
    let tier := if String.eqb productName "Aegis" then Some "A" else tier in
    match tier with
    | None => (db, mkResponse 400 (Error "unknown productName"))
    | Some tier =>
        let key := makeKey tier (randomBytes w 0) in
        let id := uuidv4 w 0 in
        let createdAt := Date_now w 0 in
        match expiry (Date_now w 1) (Some 30) with
        | None => (db, server_error)
        | Some expiresAt =>
            match Db.insert id key tier (Some email) createdAt expiresAt db with
            | None => (db, server_error)
            | Some db' => (db', json (WixOrder key email productName expiresAt))
            end
        end
    end.

(** The routes of the application. *)
Inductive Route :=
| GET_generate | POST_activate | POST_renew | POST_deactivate
| GET_info | GET_validate | GET_root | POST_wix_order.

Definition handle (rt : Route) (w : World) (req : Request) (db : Store)
  : Store * Response :=
  match rt with
  | GET_generate => generate w req db
  | POST_activate => activate w req db
  | POST_renew => renew w req db
  | POST_deactivate => deactivate req db
  | GET_info => info req db
  | GET_validate => validate w req db
  | GET_root => root db
  | POST_wix_order => wix_order w req db
  end.

(** Requests served one after the other. *)
Fixpoint serve (calls : list (Route * World * Request)) (db : Store)
  : Store * list Response :=
  match calls with
  | [] => (db, [])
  | (rt, w, req) :: rest =>
      let '(db1, r) := handle rt w req db in
      let '(db2, rs) := serve rest db1 in
      (db2, r :: rs)
  end.

End Handlers.

(** ** Vocabulary of the statements *)

(** Validations of one key served one after the other. *)
Definition validations (k : string) (calls : list (Route * World * Request)) : Prop :=
  Forall (λ c, c.1.1 = GET_validate ∧ query_license c.2 = Some k) calls.


(** The fields of a row other than [active]. *)
Definition same_but_active (r r' : Row) : Prop :=
  id r' = id r ∧ key r' = key r ∧ tier r' = tier r ∧
  owner_email r' = owner_email r ∧ created_at r' = created_at r ∧
  expires_at r' = expires_at r ∧ bound_ip r' = bound_ip r ∧
  last_seen_ip r' = last_seen_ip r ∧ last_validated r' = last_validated r ∧
  meta r' = meta r.

(** The reasons of the decisions answered with status 200. *)
Definition negative_decisions : list string :=
  ["deactivated"; "expired"; "ip_mismatch"].

(** The record of [k] is there and bound to [b]. *)
Definition bound_to (k b : string) (db : Store) : Prop :=
  ∃ r, db !! k = Some r ∧ bound_ip r = Some b.

(** ** Concrete data for the examples *)

Module Sample.

Definition cfg : Config := mkConfig "secret" true "wix".

(** Built-ins that leave a text outside ASCII as it is and a number beyond
    the safe integers without a value; the examples do not reach them. *)
Definition js : Js.Builtins :=
  Js.mkBuiltins (λ s, s) (λ s, s) (λ _, None) (λ _, None) (λ _, "NaN").

(** A clock that stands still at [t]; fixed random bytes and UUID. *)
Definition at_time (t : Z) : World :=
  mkWorld (λ _, t) (λ _, [x0a; xff; x00]) (λ _, "uuid-1").

Definition get_validate (license : string) (peer : string) : Request :=
  mkRequest None None None None (Some peer) None (Some license)
            None None None None None None None None.

Definition forwarded_validate (license : string) (header : string) : Request :=
  mkRequest None (Some header) None None (Some "::1") None (Some license)
            None None None None None None None None.

Definition admin_post (license : string) (days : option Js.jsval)
    (email : option string) : Request :=
  mkRequest (Some "secret") None None None (Some "::1") None None
            None None None (Some license) days email None None.

Definition admin_generate (tier days : option string) : Request :=
  mkRequest (Some "secret") None None None (Some "::1") None None
            tier None days None None None None None.

(** An active, unbound license that expires at time 5000. *)
Definition row : Row :=
  mkRow "uuid-0" "K" "A" (Some "owner@example.com") 100 (Some 5000) true
        None None None None.

Definition db : Store := {[ "K" := row ]}.

End Sample.

(** A store in which the first drawn key is taken. *)
Module Collision.

(** The first draw repeats an issued key, the second would be fresh. *)
Definition w : World :=
  mkWorld (λ _, 1000)
          (λ n, match n with
                | O => [x0a; xff; x00; x11; x22; x33; x44; x55; x66; x77; x88; x99]
                | _ => [x01; x02; x03; x04; x05; x06; x07; x08; x09; x0a; x0b; x0c]
                end)
          (λ n, match n with O => "uuid-1" | _ => "uuid-2" end).

Definition issued : Row :=
  mkRow "uuid-0" "S-0AFF00112233445566778899" "S" None 100 (Some 5000) true
        None None None None.

Definition db : Store := {[ "S-0AFF00112233445566778899" := issued ]}.

Definition req : Request := Sample.admin_generate None None.

End Collision.

From Stdlib Require DecimalPos.

(** ** Configuration from the environment *)

(** [process.env]: a variable is set to a text or unset. *)
Definition loadConfig (env : string → option string) : Config :=
  mkConfig (Js.or_text (env "ADMIN_TOKEN") "admin-token-placeholder")
           (String.eqb (Js.or_text (env "BIND_IP_ON_FIRST_VALIDATE") "true") "true")
           (Js.or_text (env "WIX_SHARED_SECRET") "changeme").

(** ** Vocabulary of the further statements *)

(** The routes behind the [requireAdmin] middleware. *)
Definition admin_routes : list Route :=
  [GET_generate; POST_activate; POST_renew; POST_deactivate].

(** The columns that no UPDATE statement of the application names. *)
Definition same_identity (r r' : Row) : Prop :=
  id r' = id r ∧ key r' = key r ∧ tier r' = tier r ∧
  created_at r' = created_at r ∧ meta r' = meta r.

(** Every row is stored under its own [key] column. *)
Definition keyed (db : Store) : Prop :=
  ∀ k r, db !! k = Some r → key r = k.

(** The PRIMARY KEY constraint: no two rows share an [id]. *)
Definition unique_ids (db : Store) : Prop :=
  ∀ k1 k2 r1 r2, db !! k1 = Some r1 → db !! k2 = Some r2 → id r1 = id r2 → k1 = k2.

(** The stored license that a request of a route may write: the [license]
    query parameter of [/validate], the [license] property of the body of
    [/activate], [/renew] and [/deactivate]; the other routes update no
    stored record. *)
Definition addressed (rt : Route) (req : Request) : option string :=
  match rt with
  | GET_validate => query_license req
  | POST_activate | POST_renew | POST_deactivate => body_license req
  | GET_generate | GET_info | GET_root | POST_wix_order => None
  end.

(** One write statement of the application: an UPDATE, which leaves the
    columns of [same_identity] alone, or an INSERT that succeeded, under a
    key that is not empty. *)
Inductive write : Store → Store → Prop :=
| write_update (f : Row → Row) (k : string) (db : Store) :
    (∀ r, same_identity r (f r)) → write db (Db.update f k db)
| write_insert i k t email created expires (db db' : Store) :
    k ≠ "" → Db.insert i k t email created expires db = Some db' → write db db'.

(** The digits of an upper-case hexadecimal text, and the text read back as
    bytes (two digits a byte). *)
Definition is_upper_hex (c : ascii) : bool :=
  let n := N_of_ascii c in
  (((48 <=? n) && (n <=? 57)) || ((65 <=? n) && (n <=? 70)))%N.

Fixpoint all_chars (p : ascii → bool) (s : string) : bool :=
  match s with
  | EmptyString => true
  | String c s' => p c && all_chars p s'
  end.

Definition unhex_digit (c : ascii) : N :=
  let n := N_of_ascii c in
  if (n <=? 57)%N then (n - 48)%N else (n - 55)%N.

Fixpoint unhex (s : string) : list byte :=
  match s with
  | String hi (String lo s') =>
      match Byte.of_N (16 * unhex_digit hi + unhex_digit lo) with
      | Some b => b :: unhex s'
      | None => []
      end
  | _ => []
  end.

(** A text without the character [c]. *)
Fixpoint lacks (c : ascii) (s : string) : bool :=
  match s with
  | EmptyString => true
  | String c' s' => negb (Ascii.eqb c' c) && lacks c s'
  end.


(** ** The in-memory prototype

    The Express application that keeps the stored licenses in the array
    [licenseStorage] ([/generate], [/store], [/validate], [/all]). *)

Module Memory.

(** The value of [LICENSE_TYPES[type]]: an own property (the tier name) or
    a member inherited from [Object.prototype] (a function or an object,
    truthy); [None] is [undefined]. *)
Inductive typeval :=
| Own (name : string)
| Inherited (prop : string).

Definition object_prototype : list string :=
  ["constructor"; "__defineGetter__"; "__defineSetter__"; "hasOwnProperty";
   "__lookupGetter__"; "__lookupSetter__"; "isPrototypeOf";
   "propertyIsEnumerable"; "toString"; "valueOf"; "__proto__"; "toLocaleString"].

Definition LICENSE_TYPES (type : string) : option typeval :=
  if String.eqb type "S" then Some (Own "Sentinel")
  else if String.eqb type "G" then Some (Own "Guardian")
  else if String.eqb type "A" then Some (Own "Aegis")
  else if Js.includes object_prototype type then Some (Inherited type)
  else None.

Definition randomBlock (js : Js.Builtins) (bytes : list byte) : string :=
  Js.toUpperCase js (Js.hex bytes).

Definition generateLicense (js : Js.Builtins) (type : string) (bytes : list byte)
  : string :=
  let prefix := Js.toUpperCase js type in
  prefix +:+ "-" +:+ randomBlock js bytes.

Record Entry := mkEntry {
  license : string;
  tier : typeval;
  createdAt : Z
}.

Inductive Body :=
| Error (error : string)
| Generated (license : string) (tier : typeval) (generatedAt : Z)
| Stored (data : Entry)
| Validity (valid : bool) (license : string) (info : option Entry)
| All (count : nat) (licenses : list Entry).

Record Response := mkResponse { status : Z; body : Body }.

Definition json (b : Body) : Response := mkResponse 200 b.

Definition invalid_type : Response :=
  mkResponse 400 (Error "Invalid license type (S, G, A allowed)").

(** POST /generate; [type] is the [type] property of the body. *)
Definition generate (js : Js.Builtins) (w : World) (type : option string)
    (licenseStorage : list Entry) : list Entry * Response :=
  if negb (Js.truthy type) then (licenseStorage, invalid_type) else
  match LICENSE_TYPES (default "" type) with
  | None => (licenseStorage, invalid_type)
  | Some t =>
      let license := generateLicense js (default "" type) (randomBytes w 0) in
      (licenseStorage, json (Generated license t (Date_now w 0)))
  end.

(** POST /store *)
Definition store (js : Js.Builtins) (w : World) (type : option string)
    (licenseStorage : list Entry) : list Entry * Response :=
  if negb (Js.truthy type) then (licenseStorage, invalid_type) else
  match LICENSE_TYPES (default "" type) with
  | None => (licenseStorage, invalid_type)
  | Some t =>
      let license := generateLicense js (default "" type) (randomBytes w 0) in
      let data := mkEntry license t (Date_now w 0) in
      ((licenseStorage ++ [data])%list, json (Stored data))
  end.

(** [licenseStorage.find(l => l.license === license)] *)
Definition find_license (license' : string) (licenseStorage : list Entry)
  : option Entry :=
  List.find (λ l, String.eqb (license l) license') licenseStorage.

(** POST /validate; [license] is the [license] property of the body. *)
Definition validate (license' : option string) (licenseStorage : list Entry)
  : list Entry * Response :=
  if negb (Js.truthy license') then
    (licenseStorage, mkResponse 400 (Error "License required"))
  else
    let found := find_license (default "" license') licenseStorage in
    (licenseStorage,
     json (Validity (bool_decide (is_Some found)) (default "" license') found)).

(** GET /all *)
Definition all (licenseStorage : list Entry) : list Entry * Response :=
  (licenseStorage, json (All (length licenseStorage) licenseStorage)).

End Memory.

(** ** The prototype with a set of saved keys

    The Express application of [server.js]: [/generate] behind a bearer
    secret, [/verify]. *)

Module Saved.

(** [NotProvided] is [{ valid: false, error: "No license provided" }]. *)
Inductive Body :=
| Error (error : string)
| License (license : string)
| Verdict (valid : bool)
| NotProvided.

Record Response := mkResponse { status : Z; body : Body }.

Definition json (b : Body) : Response := mkResponse 200 b.

(** [`Bearer ${SECRET}`]; an unset LICENSE_SECRET prints as [undefined]. *)
Definition bearer (SECRET : option string) : string :=
  "Bearer " +:+ default "undefined" SECRET.

Definition generateLicense (bytes : list byte) : string := Js.hex bytes.

(** POST /generate; [auth] is the [authorization] header. *)
Definition generate (SECRET : option string) (w : World) (auth : option string)
    (savedLicenses : gset string) : gset string * Response :=
  if negb (Js.truthy auth) || negb (String.eqb (default "" auth) (bearer SECRET)) then
    (savedLicenses, mkResponse 403 (Error "Unauthorized"))
  else
    let key := generateLicense (randomBytes w 0) in
    ({[ key ]} ∪ savedLicenses, json (License key)).

(** GET /verify; [license] is the [license] query parameter. *)
Definition verify (license : option string) (savedLicenses : gset string)
  : gset string * Response :=
  if negb (Js.truthy license) then (savedLicenses, mkResponse 400 NotProvided)
  else if bool_decide (default "" license ∈ savedLicenses) then
    (savedLicenses, json (Verdict true))
  else (savedLicenses, json (Verdict false)).

End Saved.

(** * Properties *)

Example toUpperCase_g : Js.toUpperCase Sample.js "g" = "G".
Proof. reflexivity. Qed.

Example trim_ex : Js.trim Sample.js "  10.0.0.1 " = "10.0.0.1".
Proof. reflexivity. Qed.

Example parseInt_ex1 : Js.parseInt Sample.js (Js.JNum 30) = Some 30.
Proof. reflexivity. Qed.

Example parseInt_ex2 : Js.parseInt Sample.js (Js.JStr " -7days") = Some (-7).
Proof. reflexivity. Qed.

Example parseInt_ex3 : Js.parseInt Sample.js Js.JNull = None.
Proof. reflexivity. Qed.

Example hex_ex : Js.toUpperCase Sample.js (Js.hex [x0a; xff; x00]) = "0AFF00".
Proof. reflexivity. Qed.

Example replace_ex : Js.replace "::ffff:" "" "::ffff:10.0.0.1" = "10.0.0.1".
Proof. reflexivity. Qed.

(** Outside ASCII and beyond the safe integers the model follows the
    built-ins it is given: with built-ins that print 1e21 in exponent form,
    trim a no-break space and upper-case the long s to [S], [parseInt] reads
    1, the address of a header that holds only the no-break space is empty,
    and the long s is the tier [S]. *)
Example builtins_ex :
  let js := Js.mkBuiltins (λ _, "S") (λ _, "") (λ _, None) (λ _, None) (λ _, "1e+21") in
  let nbsp := String (ascii_of_N 160) "" in
  let long_s := String (ascii_of_N 197) (String (ascii_of_N 191) "") in
  Js.parseInt js (Js.JNum (10 ^ 21)) = Some 1 ∧
  getRequestIP js (mkRequest None (Some nbsp) None None (Some "10.0.0.1") None
                     (Some "K") None None None None None None None None) = "" ∧
  Js.includes ["S"; "G"; "A"] (Js.toUpperCase js long_s) = true.
Proof. repeat split; reflexivity. Qed.

Example validate_first_ex :
  (validate Sample.cfg Sample.js (Sample.at_time 1000)
     (Sample.get_validate "K" "::ffff:10.0.0.1") Sample.db).2
  = json (Valid "K" "A" (Some "owner@example.com") (Some 5000) "10.0.0.1").
Proof. reflexivity. Qed.

Example getRequestIP_forwarded_ex :
  getRequestIP Sample.js (Sample.forwarded_validate "K" "10.0.0.7 , 10.0.0.8") = "10.0.0.7".
Proof. reflexivity. Qed.

(** ** Basic facts about the primitives *)

Lemma truthy_Some (o : option string) :
  Js.truthy o = true ↔ ∃ s, o = Some s ∧ s ≠ "".
Proof.
  destruct o as [s|]; simpl; split.
  - intros H. exists s. split; [done|]. intros ->. discriminate.
  - intros (s' & [= <-] & Hs). destruct (String.eqb_spec s ""); [done|reflexivity].
  - discriminate.
  - intros (s' & [=] & _).
Qed.

Lemma truthy_text (s : string) : s ≠ "" → Js.truthy (Some s) = true.
Proof. intros H. apply truthy_Some. eauto. Qed.

Lemma truthy_false_bound (o : option string) (b : string) :
  o = Some b → b ≠ "" → Js.truthy o = true.
Proof. intros -> H. by apply truthy_text. Qed.

Lemma update_present (f : Row → Row) (k : string) (db : Store) (r : Row) :
  db !! k = Some r → Db.update f k db = <[k := f r]> db.
Proof.
  intros H. unfold Db.update. apply map_eq. intros j.
  rewrite lookup_alter, lookup_insert.
  destruct (decide (k = j)) as [<-|]; [by rewrite H|done].
Qed.

Lemma update_absent (f : Row → Row) (k : string) (db : Store) :
  db !! k = None → Db.update f k db = db.
Proof.
  intros H. unfold Db.update. apply map_eq. intros j.
  rewrite lookup_alter.
  destruct (decide (k = j)) as [<-|]; [by rewrite H|done].
Qed.

Lemma insert_fresh i k t email created expires (db db' : Store) :
  Db.insert i k t email created expires db = Some db' →
  db !! k = None ∧
  db' = <[k := mkRow i k t email created (Some expires) true None None None None]> db.
Proof.
  unfold Db.insert. intros H.
  destruct (bool_decide (is_Some (db !! k))) eqn:Hk; simpl in H; [done|].
  destruct (Db.id_taken i db); [done|]. injection H as <-.
  apply bool_decide_eq_false in Hk. split; [|done].
  by apply eq_None_not_Some.
Qed.

Lemma insert_taken i k t email created expires (db : Store) :
  is_Some (db !! k) → Db.insert i k t email created expires db = None.
Proof.
  intros H. unfold Db.insert. by rewrite bool_decide_eq_true_2.
Qed.

Lemma expiry_Some (now d : Z) :
  Z.abs (now + d * 86400000) ≤ Js.max_time →
  expiry now (Some d) = Some (now + d * 86400000).
Proof.
  intros H. unfold expiry. simpl.
  destruct (Z.leb_spec (Z.abs (now + d * 86400000)) Js.max_time); [done|lia].
Qed.

(** ** The branches of [validate] *)

Section Validate.

Variable cfg : Config.
Variable js : Js.Builtins.

Lemma validate_no_license w req db :
  Js.truthy (query_license req) = false →
  validate cfg js w req db = (db, mkResponse 400 (Decision false "license required")).
Proof. intros H. unfold validate. by rewrite H. Qed.

Lemma validate_absent w req db k :
  query_license req = Some k → k ≠ "" → db !! k = None →
  validate cfg js w req db = (db, mkResponse 404 (Decision false "not_found")).
Proof.
  intros Hq Hk Hdb. unfold validate, Db.select.
  rewrite Hq, (truthy_text k Hk). simpl. by rewrite Hdb.
Qed.

Lemma validate_inactive w req db k r :
  query_license req = Some k → k ≠ "" → db !! k = Some r → active r = false →
  validate cfg js w req db = (db, json (Decision false "deactivated")).
Proof.
  intros Hq Hk Hdb Ha. unfold validate, Db.select.
  rewrite Hq, (truthy_text k Hk). simpl. by rewrite Hdb, Ha.
Qed.

Lemma validate_expired w req db k r :
  query_license req = Some k → k ≠ "" → db !! k = Some r → active r = true →
  expired r (Date_now w 1) = true →
  validate cfg js w req db
  = (<[k := set_active false r]> db, json (Decision false "expired")).
Proof.
  intros Hq Hk Hdb Ha He. unfold validate, Db.select.
  rewrite Hq, (truthy_text k Hk). simpl. rewrite Hdb, Ha, He. simpl.
  by rewrite (update_present _ _ _ _ Hdb).
Qed.



End Validate.

Lemma serve_deactivated cfg js k calls (db : Store) r :
  k ≠ "" → db !! k = Some r → active r = false → validations k calls →
  serve cfg js calls db = (db, (λ _, json (Decision false "deactivated")) <$> calls).
Proof.
  intros Hk Hdb Ha Hcalls. induction Hcalls as [|[[rt w] req] calls [Hrt Hq] _ IH]; [done|].
  simpl in *. subst rt. simpl.
  rewrite (validate_inactive cfg js w req db k r Hq Hk Hdb Ha).
  by rewrite IH.
Qed.

(** ** Expiry *)

(** C2: on an active record whose expiry lies in the past, the first
    [validate] answers [valid=false], reason [expired], and its only write
    is [active := false] on that record (every other field and every other
    record stay as they were); each later [validate] of that key answers
    [valid=false], reason [deactivated], and writes nothing. *)
Theorem validate_expired_then_deactivated
    cfg js w req (db : Store) k r e (later : list (Route * World * Request)) :
  query_license req = Some k → k ≠ "" →
  db !! k = Some r → active r = true →
  expires_at r = Some e → e < Date_now w 1 →
  validations k later →
  let r' := set_active false r in
  same_but_active r r' ∧ active r' = false ∧
  validate cfg js w req db = (<[k := r']> db, json (Decision false "expired")) ∧
  serve cfg js later (<[k := r']> db)
  = (<[k := r']> db, (λ _, json (Decision false "deactivated")) <$> later).
Proof.
  intros Hq Hk Hdb Ha He Hlt Hlater r'.
  split; [by repeat split|]. split; [done|]. split.
  - apply validate_expired; try done. unfold expired. rewrite He.
    by apply Z.ltb_lt.
  - apply (serve_deactivated cfg js k later _ r'); try done.
    apply lookup_insert_eq.
Qed.

Lemma validate_expired_then_deactivated_witness :
  let w := Sample.at_time 6000 in
  let req := Sample.get_validate "K" "10.0.0.1" in
  let later :=
    [(GET_validate, Sample.at_time 6001, Sample.get_validate "K" "10.0.0.1");
     (GET_validate, Sample.at_time 100, Sample.get_validate "K" "10.0.0.2")] in
  let r' := set_active false Sample.row in
  (query_license req = Some "K" ∧ "K" ≠ "" ∧ Sample.db !! "K" = Some Sample.row ∧
   active Sample.row = true ∧ expires_at Sample.row = Some 5000 ∧
   5000 < Date_now w 1 ∧ validations "K" later) ∧
  same_but_active Sample.row r' ∧ active r' = false ∧
  validate Sample.cfg Sample.js w req Sample.db
  = (<["K" := r']> Sample.db, json (Decision false "expired")) ∧
  serve Sample.cfg Sample.js later (<["K" := r']> Sample.db)
  = (<["K" := r']> Sample.db,
     [json (Decision false "deactivated"); json (Decision false "deactivated")]).
Proof.
  intros w req later r'.
  assert (query_license req = Some "K" ∧ "K" ≠ "" ∧
          Sample.db !! "K" = Some Sample.row ∧
          active Sample.row = true ∧ expires_at Sample.row = Some 5000 ∧
          5000 < Date_now w 1 ∧ validations "K" later) as H.
  { repeat split; try reflexivity; try discriminate; repeat constructor. }
  split; [exact H|].
  destruct H as (H1 & H2 & H3 & H4 & H5 & H6 & H7).
  exact (validate_expired_then_deactivated Sample.cfg Sample.js w req Sample.db "K"
           Sample.row 5000 later H1 H2 H3 H4 H5 H6 H7).
Defined.

(** C5, as the code has it: an active record is refused as [expired]
    exactly when the clock reading of the check is strictly after
    [expires_at]; at the expiry instant itself, and before it, the answer is
    not [expired]. *)
Theorem validate_expired_iff_strictly_after cfg js w req (db : Store) k r e :
  query_license req = Some k → k ≠ "" →
  db !! k = Some r → active r = true → expires_at r = Some e →
  (e < Date_now w 1 →
   (validate cfg js w req db).2 = json (Decision false "expired")) ∧
  (Date_now w 1 ≤ e →
   body_reason (body (validate cfg js w req db).2) ≠ Some "expired").
Proof.
  intros Hq Hk Hdb Ha He. split; intros Ht.
  - rewrite (validate_expired cfg js w req db k r); try done.
    unfold expired. rewrite He. by apply Z.ltb_lt.
  - unfold validate, Db.select.
    rewrite Hq, (truthy_text k Hk). simpl. rewrite Hdb, Ha. simpl.
    unfold expired. rewrite He.
    destruct (Z.ltb_spec e (Date_now w 1)); [lia|].
    destruct (Js.truthy (bound_ip r)).
    + destruct (negb _); simpl; discriminate.
    + destruct (BIND_IP_ON_FIRST_VALIDATE cfg); simpl; discriminate.
Qed.

Lemma validate_expired_iff_strictly_after_witness :
  let req := Sample.get_validate "K" "10.0.0.1" in
  (query_license req = Some "K" ∧ "K" ≠ "" ∧ Sample.db !! "K" = Some Sample.row ∧
   active Sample.row = true ∧ expires_at Sample.row = Some 5000 ∧
   5000 < Date_now (Sample.at_time 5001) 1 ∧
   Date_now (Sample.at_time 5000) 1 ≤ 5000) ∧
  (validate Sample.cfg Sample.js (Sample.at_time 5001) req Sample.db).2
  = json (Decision false "expired") ∧
  body_reason (body (validate Sample.cfg Sample.js (Sample.at_time 5000) req Sample.db).2)
  ≠ Some "expired".
Proof.
  intros req.
  assert (query_license req = Some "K" ∧ "K" ≠ "" ∧
          Sample.db !! "K" = Some Sample.row ∧
          active Sample.row = true ∧ expires_at Sample.row = Some 5000 ∧
          5000 < Date_now (Sample.at_time 5001) 1 ∧
          Date_now (Sample.at_time 5000) 1 ≤ 5000) as H.
  { repeat split; try reflexivity; try discriminate; try (simpl; lia). }
  split; [exact H|].
  destruct H as (H1 & H2 & H3 & H4 & H5 & H6 & H7). split.
  - exact (proj1 (validate_expired_iff_strictly_after Sample.cfg Sample.js (Sample.at_time 5001)
                    req Sample.db "K" Sample.row 5000 H1 H2 H3 H4 H5) H6).
  - exact (proj2 (validate_expired_iff_strictly_after Sample.cfg Sample.js (Sample.at_time 5000)
                    req Sample.db "K" Sample.row 5000 H1 H2 H3 H4 H5) H7).
Defined.

(** C5 as stated fails at the expiry instant: the record expires at 5000,
    the clock reads 5000, and the license validates. *)
Lemma validate_at_expiry_instant_is_valid :
  let w := Sample.at_time 5000 in
  let req := Sample.get_validate "K" "10.0.0.1" in
  Sample.db !! "K" = Some Sample.row ∧ active Sample.row = true ∧
  expires_at Sample.row = Some 5000 ∧ 5000 ≤ Date_now w 1 ∧
  (validate Sample.cfg Sample.js w req Sample.db).2
  = json (Valid "K" "A" (Some "owner@example.com") (Some 5000) "10.0.0.1") ∧
  (validate Sample.cfg Sample.js w req Sample.db).2 ≠ json (Decision false "expired").
Proof.
  repeat split; try reflexivity; try discriminate; try (simpl; lia).
Qed.

(** ** Decisions and their status codes *)

(** C6, as the code has it: the decisions [deactivated], [expired] and
    [ip_mismatch] are answered with status 200, [valid=false] and the reason
    code; an unknown key is answered with the decision object
    [{valid: false, reason: 'not_found'}] as well, but under status 404. *)
Theorem validate_decision_status cfg js w req (db : Store) :
  (∀ reason, body_reason (body (validate cfg js w req db).2) = Some reason →
     reason ∈ negative_decisions →
     status (validate cfg js w req db).2 = 200 ∧
     body_valid (body (validate cfg js w req db).2) = Some false) ∧
  (∀ k, query_license req = Some k → k ≠ "" → db !! k = None →
     validate cfg js w req db = (db, mkResponse 404 (Decision false "not_found"))).
Proof.
  split.
  - intros reason Hr Hin. unfold validate in *.
    assert (∀ s, s ∈ negative_decisions → s ≠ "license required" ∧ s ≠ "not_found") as Hneg.
    { intros s Hs. unfold negative_decisions in Hs.
      rewrite !elem_of_cons, elem_of_nil in Hs.
      destruct Hs as [->|[->|[->|[]]]]; split; discriminate. }
    destruct (Hneg reason Hin) as [Hn1 Hn2].
    destruct (negb (Js.truthy (query_license req))); simpl in *.
    { injection Hr as <-. done. }
    destruct (Db.select _ db) as [row|]; simpl in *.
    2:{ injection Hr as <-. done. }
    destruct (negb (active row)); simpl in *; [done|].
    destruct (expired row (Date_now w 1)); simpl in *; [done|].
    destruct (Js.truthy (bound_ip row)).
    + destruct (negb _); simpl in *; [done|discriminate].
    + destruct (BIND_IP_ON_FIRST_VALIDATE cfg); simpl in *; discriminate.
  - intros k Hq Hk Hdb. by apply validate_absent with k.
Qed.

Lemma validate_decision_status_witness :
  let w := Sample.at_time 6000 in
  let req := Sample.get_validate "K" "10.0.0.1" in
  let req' := Sample.get_validate "X-UNKNOWN" "10.0.0.1" in
  (body_reason (body (validate Sample.cfg Sample.js w req Sample.db).2) = Some "expired" ∧
   "expired" ∈ negative_decisions ∧
   query_license req' = Some "X-UNKNOWN" ∧ "X-UNKNOWN" ≠ "" ∧
   Sample.db !! "X-UNKNOWN" = None) ∧
  (status (validate Sample.cfg Sample.js w req Sample.db).2 = 200 ∧
   body_valid (body (validate Sample.cfg Sample.js w req Sample.db).2) = Some false) ∧
  validate Sample.cfg Sample.js w req' Sample.db
  = (Sample.db, mkResponse 404 (Decision false "not_found")).
Proof.
  intros w req req'.
  assert (body_reason (body (validate Sample.cfg Sample.js w req Sample.db).2) = Some "expired" ∧
          "expired" ∈ negative_decisions ∧
          query_license req' = Some "X-UNKNOWN" ∧ "X-UNKNOWN" ≠ "" ∧
          Sample.db !! "X-UNKNOWN" = None) as H.
  { repeat split; try reflexivity; try discriminate.
    unfold negative_decisions. apply list_elem_of_further, list_elem_of_here. }
  split; [exact H|].
  destruct H as (H1 & H2 & H3 & H4 & H5). split.
  - exact (proj1 (validate_decision_status Sample.cfg Sample.js w req Sample.db) "expired" H1 H2).
  - exact (proj2 (validate_decision_status Sample.cfg Sample.js w req' Sample.db) "X-UNKNOWN" H3 H4 H5).
Defined.

(** C6 as stated fails for [not_found]: the unknown key is answered with
    the client-error status 404, not with a successful one. *)
Lemma validate_not_found_is_404 :
  let res := (validate Sample.cfg Sample.js (Sample.at_time 1000)
                (Sample.get_validate "X-UNKNOWN" "10.0.0.1") Sample.db).2 in
  Sample.db !! "X-UNKNOWN" = None ∧
  body_reason (body res) = Some "not_found" ∧
  status res = 404 ∧ status res ≠ 200.
Proof. repeat split; try reflexivity; discriminate. Qed.

(** ** Renewal of an unknown key *)

(** C9: [renew] on a key that has no record answers 404 [not_found] and
    leaves the store as it was. *)
Theorem renew_unknown_key cfg js w req (db : Store) k :
  requireAdmin cfg req = true →
  body_license req = Some k → k ≠ "" → db !! k = None →
  renew cfg js w req db = (db, mkResponse 404 (Error "not_found")).
Proof.
  intros Hadm Hq Hk Hdb. unfold renew, Db.select.
  rewrite Hadm, Hq, (truthy_text k Hk). simpl. by rewrite Hdb.
Qed.

Lemma renew_unknown_key_witness :
  let req := Sample.admin_post "X-DOESNOTEXIST" None None in
  (requireAdmin Sample.cfg req = true ∧ body_license req = Some "X-DOESNOTEXIST" ∧
   "X-DOESNOTEXIST" ≠ "" ∧ Sample.db !! "X-DOESNOTEXIST" = None) ∧
  renew Sample.cfg Sample.js (Sample.at_time 1000) req Sample.db
  = (Sample.db, mkResponse 404 (Error "not_found")).
Proof.
  intros req.
  assert (requireAdmin Sample.cfg req = true ∧ body_license req = Some "X-DOESNOTEXIST" ∧
          "X-DOESNOTEXIST" ≠ "" ∧ Sample.db !! "X-DOESNOTEXIST" = None) as H.
  { repeat split; try reflexivity; discriminate. }
  split; [exact H|].
  destruct H as (H1 & H2 & H3 & H4).
  exact (renew_unknown_key Sample.cfg Sample.js (Sample.at_time 1000) req Sample.db
           "X-DOESNOTEXIST" H1 H2 H3 H4).
Defined.

(** ** Binding on the first validation *)





(** ** The bound address is written once *)

Section BoundIp.

Variables (cfg : Config) (js : Js.Builtins) (k b : string).
Hypothesis b_not_empty : b ≠ "".

Lemma bound_to_update (f : Row → Row) (j : string) (db : Store) :
  (∀ r, bound_ip (f r) = bound_ip r) →
  bound_to k b db → bound_to k b (Db.update f j db).
Proof.
  intros Hf (r & Hr & Hb). unfold Db.update, bound_to.
  destruct (decide (j = k)) as [->|Hne].
  - exists (f r). rewrite lookup_alter_eq, Hr. simpl. by rewrite Hf.
  - exists r. by rewrite lookup_alter_ne.
Qed.

Lemma bound_to_insert i j t email created expires (db db' : Store) :
  Db.insert i j t email created expires db = Some db' →
  bound_to k b db → bound_to k b db'.
Proof.
  intros Hins (r & Hr & Hb). apply insert_fresh in Hins as [Hfree ->].
  exists r. split; [|done]. rewrite lookup_insert_ne; [done|]. congruence.
Qed.

Lemma bound_to_rebind (j ip : string) (db : Store) (row : Row) :
  db !! j = Some row → Js.truthy (bound_ip row) = false →
  bound_to k b db → bound_to k b (Db.update (set_bound_ip (Some ip)) j db).
Proof.
  intros Hrow Hfalsy (r & Hr & Hb). unfold Db.update, bound_to.
  destruct (decide (j = k)) as [->|Hne].
  - rewrite Hr in Hrow. injection Hrow as <-.
    rewrite (truthy_false_bound _ b Hb b_not_empty) in Hfalsy. discriminate.
  - exists r. by rewrite lookup_alter_ne.
Qed.

Lemma handle_bound_to rt w req (db : Store) :
  bound_to k b db → bound_to k b (handle cfg js rt w req db).1.
Proof.
  intros H. destruct rt; simpl.
  - unfold generate. repeat case_match; simpl; eauto using bound_to_insert.
  - unfold activate. repeat case_match; simpl; eauto using bound_to_insert.
    by apply bound_to_update.
  - unfold renew. repeat case_match; simpl; try done. by apply bound_to_update.
  - unfold deactivate. repeat case_match; simpl; try done. by apply bound_to_update.
  - unfold info. by repeat case_match.
  - unfold validate.
    destruct (negb (Js.truthy (query_license req))); [done|].
    destruct (Db.select _ db) as [row|] eqn:Hrow; [|done].
    destruct (negb (active row)); [done|].
    destruct (expired row (Date_now w 1)); simpl.
    { by apply bound_to_update. }
    destruct (Js.truthy (bound_ip row)) eqn:Hb.
    + destruct (negb _); simpl; [done|]. by apply bound_to_update.
    + destruct (BIND_IP_ON_FIRST_VALIDATE cfg); simpl.
      * apply bound_to_update; [done|]. by apply bound_to_rebind with row.
      * by apply bound_to_update.
  - done.
  - unfold wix_order. repeat case_match; simpl; eauto using bound_to_insert.
Qed.

Lemma serve_bound_to calls (db : Store) :
  bound_to k b db → bound_to k b (serve cfg js calls db).1.
Proof.
  revert db. induction calls as [|[[rt w] req] calls IH]; intros db H; [done|].
  simpl. pose proof (handle_bound_to rt w req db H) as H1.
  destruct (handle cfg js rt w req db) as [db1 r1]. simpl in H1.
  specialize (IH db1 H1). destruct (serve cfg js calls db1) as [db2 rs]. done.
Qed.

End BoundIp.

(** C4: once a record is bound to a non-empty address, no request on any
    route ([/validate], [/activate], [/renew], [/deactivate], and also
    [/generate], [/info], [/] and [/wix/order]), and no sequence of them,
    removes the record or changes its [bound_ip]. *)
Theorem bound_ip_never_changes
    cfg js (calls : list (Route * World * Request)) (db : Store) k r b :
  db !! k = Some r → bound_ip r = Some b → b ≠ "" →
  ∃ r', (serve cfg js calls db).1 !! k = Some r' ∧ bound_ip r' = Some b.
Proof.
  intros Hdb Hb Hne. apply (serve_bound_to cfg js k b Hne calls db). by exists r.
Qed.

Lemma bound_ip_never_changes_witness :
  let bound := set_bound_ip (Some "10.0.0.1") Sample.row in
  let db : Store := {[ "K" := bound ]} in
  let calls :=
    [(GET_validate, Sample.at_time 1000, Sample.get_validate "K" "10.0.0.2");
     (POST_deactivate, Sample.at_time 1001, Sample.admin_post "K" None None);
     (POST_activate, Sample.at_time 1002, Sample.admin_post "K" (Some (Js.JNum 7)) None);
     (POST_renew, Sample.at_time 1003, Sample.admin_post "K" None None);
     (GET_validate, Sample.at_time 1004, Sample.get_validate "K" "10.0.0.1")] in
  (db !! "K" = Some bound ∧ bound_ip bound = Some "10.0.0.1" ∧ "10.0.0.1" ≠ "") ∧
  ∃ r', (serve Sample.cfg Sample.js calls db).1 !! "K" = Some r' ∧ bound_ip r' = Some "10.0.0.1".
Proof.
  intros bound db calls.
  assert (db !! "K" = Some bound ∧ bound_ip bound = Some "10.0.0.1" ∧ "10.0.0.1" ≠ "") as H.
  { repeat split; try reflexivity; discriminate. }
  split; [exact H|].
  destruct H as (H1 & H2 & H3).
  exact (bound_ip_never_changes Sample.cfg Sample.js calls db "K" bound "10.0.0.1" H1 H2 H3).
Defined.

(** ** Key generation *)

Lemma generate_admitted cfg js w req (db : Store) t :
  requireAdmin cfg req = true →
  Js.toUpperCase js (Js.or_text (query_tier req) "S") = t →
  Js.includes ["S"; "G"; "A"] t = true →
  generate cfg js w req db
  = match expiry (Date_now w 0) (Js.parseInt_text js (Js.or_text (query_days req) "30")) with
    | None => (db, server_error)
    | Some expiresAt =>
        match Db.insert (uuidv4 w 0) (makeKey js t (randomBytes w 0)) t
                (Js.or_else (query_email req) None) (Date_now w 1) expiresAt db with
        | None => (db, server_error)
        | Some db' =>
            (db', json (Generated (makeKey js t (randomBytes w 0)) (tierName t) expiresAt
                          (Date_now w 1) (Js.or_else (query_email req) None)))
        end
    end.
Proof.
  intros Hadm Ht Hin. unfold generate. by rewrite Hadm, Ht, Hin.
Qed.

(** C7, as the code has it: when the generated key is already in the
    table, the INSERT fails and [/generate] answers 500 [server_error] at
    once, without drawing another key; the store is left as it was. *)
Theorem generate_collision_is_server_error cfg js w req (db : Store) t :
  requireAdmin cfg req = true →
  Js.toUpperCase js (Js.or_text (query_tier req) "S") = t →
  Js.includes ["S"; "G"; "A"] t = true →
  is_Some (db !! makeKey js t (randomBytes w 0)) →
  generate cfg js w req db = (db, server_error).
Proof.
  intros Hadm Ht Hin Hdup. rewrite (generate_admitted cfg js w req db t) by done.
  destruct (expiry _ _); [|done]. by rewrite insert_taken.
Qed.

Lemma generate_collision_is_server_error_witness :
  (requireAdmin Sample.cfg Collision.req = true ∧
   Js.toUpperCase Sample.js (Js.or_text (query_tier Collision.req) "S") = "S" ∧
   Js.includes ["S"; "G"; "A"] "S" = true ∧
   is_Some (Collision.db !! makeKey Sample.js "S" (randomBytes Collision.w 0))) ∧
  generate Sample.cfg Sample.js Collision.w Collision.req Collision.db
  = (Collision.db, server_error).
Proof.
  assert (requireAdmin Sample.cfg Collision.req = true ∧
          Js.toUpperCase Sample.js (Js.or_text (query_tier Collision.req) "S") = "S" ∧
          Js.includes ["S"; "G"; "A"] "S" = true ∧
          is_Some (Collision.db !! makeKey Sample.js "S" (randomBytes Collision.w 0))) as H.
  { repeat split; try reflexivity. exists Collision.issued. reflexivity. }
  split; [exact H|].
  destruct H as (H1 & H2 & H3 & H4).
  exact (generate_collision_is_server_error Sample.cfg Sample.js Collision.w Collision.req
           Collision.db "S" H1 H2 H3 H4).
Defined.

(** C7 as stated fails: the first key collides, a second draw would give a
    key and an id that are both free, yet the answer is 500 and nothing is
    inserted. *)
Lemma generate_does_not_retry :
  let res := generate Sample.cfg Sample.js Collision.w Collision.req Collision.db in
  makeKey Sample.js "S" (randomBytes Collision.w 0) = "S-0AFF00112233445566778899" ∧
  Collision.db !! "S-0AFF00112233445566778899" = Some Collision.issued ∧
  makeKey Sample.js "S" (randomBytes Collision.w 1) = "S-0102030405060708090A0B0C" ∧
  Collision.db !! "S-0102030405060708090A0B0C" = None ∧
  Db.id_taken (uuidv4 Collision.w 1) Collision.db = false ∧
  res.2 = mkResponse 500 (Error "server_error") ∧
  res.1 !! "S-0102030405060708090A0B0C" = None ∧ res.1 = Collision.db.
Proof. repeat split; vm_compute; reflexivity. Qed.

(** C10: for an administrator's [/generate] request whose [tier] parameter
    is absent the tier is ["S"], and a lower-case [s], [g] or [a] is read as
    its upper-case letter; such a request is never refused with status 400,
    and when the [days] parameter gives a representable expiry and the drawn
    key and id are free, a license of that tier is inserted and returned. *)
Theorem generate_tier_default_and_case cfg js w req (db : Store) t d :
  requireAdmin cfg req = true →
  (query_tier req = None ∧ t = "S") ∨
  (∃ low, query_tier req = Some low ∧ low ∈ ["s"; "g"; "a"] ∧ t = Js.toUpperCase js low) →
  t ∈ ["S"; "G"; "A"] ∧
  status (generate cfg js w req db).2 ≠ 400 ∧
  (Js.parseInt_text js (Js.or_text (query_days req) "30") = Some d →
   Z.abs (Date_now w 0 + d * 86400000) ≤ Js.max_time →
   db !! makeKey js t (randomBytes w 0) = None →
   Db.id_taken (uuidv4 w 0) db = false →
   let license := makeKey js t (randomBytes w 0) in
   let expiresAt := Date_now w 0 + d * 86400000 in
   let email := Js.or_else (query_email req) None in
   generate cfg js w req db
   = (<[license := mkRow (uuidv4 w 0) license t email (Date_now w 1) (Some expiresAt)
                     true None None None None]> db,
      json (Generated license (tierName t) expiresAt (Date_now w 1) email))).
Proof.
  intros Hadm Htier.
  assert (Js.toUpperCase js (Js.or_text (query_tier req) "S") = t ∧
          Js.includes ["S"; "G"; "A"] t = true ∧ t ∈ ["S"; "G"; "A"]) as (Ht & Hin & Hmem).
  { destruct Htier as [[Hq ->]|(low & Hq & Hlow & ->)]; rewrite Hq.
    - repeat split; try reflexivity. apply list_elem_of_here.
    - rewrite !elem_of_cons, elem_of_nil in Hlow.
      destruct Hlow as [->|[->|[->|[]]]]; repeat split; try reflexivity;
        rewrite !elem_of_cons; auto. }
  split; [done|].
  rewrite (generate_admitted cfg js w req db t) by done. split.
  - destruct (expiry _ _); [|simpl; lia].
    destruct (Db.insert _ _ _ _ _ _ _); simpl; lia.
  - intros Hd Hrange Hfree Hid license expiresAt email.
    rewrite Hd, expiry_Some by done.
    unfold Db.insert. by rewrite Hfree, Hid.
Qed.

Lemma generate_tier_default_and_case_witness :
  let w := Sample.at_time 1000 in
  let req := Sample.admin_generate None (Some "7") in
  let req' := Sample.admin_generate (Some "g") None in
  (requireAdmin Sample.cfg req = true ∧ query_tier req = None ∧
   requireAdmin Sample.cfg req' = true ∧ query_tier req' = Some "g" ∧
   "g" ∈ ["s"; "g"; "a"] ∧
   Js.parseInt_text Sample.js (Js.or_text (query_days req) "30") = Some 7 ∧
   Js.parseInt_text Sample.js (Js.or_text (query_days req') "30") = Some 30 ∧
   Z.abs (Date_now w 0 + 7 * 86400000) ≤ Js.max_time ∧
   Z.abs (Date_now w 0 + 30 * 86400000) ≤ Js.max_time ∧
   Sample.db !! makeKey Sample.js "S" (randomBytes w 0) = None ∧
   Sample.db !! makeKey Sample.js "G" (randomBytes w 0) = None ∧
   Db.id_taken (uuidv4 w 0) Sample.db = false) ∧
  generate Sample.cfg Sample.js w req Sample.db
  = (<["S-0AFF00" := mkRow "uuid-1" "S-0AFF00" "S" None 1000 (Some 604801000)
                       true None None None None]> Sample.db,
     json (Generated "S-0AFF00" "Sentinel" 604801000 1000 None)) ∧
  generate Sample.cfg Sample.js w req' Sample.db
  = (<["G-0AFF00" := mkRow "uuid-1" "G-0AFF00" "G" None 1000 (Some 2592001000)
                       true None None None None]> Sample.db,
     json (Generated "G-0AFF00" "Guardian" 2592001000 1000 None)).
Proof.
  intros w req req'.
  assert (requireAdmin Sample.cfg req = true ∧ query_tier req = None ∧
          requireAdmin Sample.cfg req' = true ∧ query_tier req' = Some "g" ∧
          "g" ∈ ["s"; "g"; "a"] ∧
          Js.parseInt_text Sample.js (Js.or_text (query_days req) "30") = Some 7 ∧
          Js.parseInt_text Sample.js (Js.or_text (query_days req') "30") = Some 30 ∧
          Z.abs (Date_now w 0 + 7 * 86400000) ≤ Js.max_time ∧
          Z.abs (Date_now w 0 + 30 * 86400000) ≤ Js.max_time ∧
          Sample.db !! makeKey Sample.js "S" (randomBytes w 0) = None ∧
          Sample.db !! makeKey Sample.js "G" (randomBytes w 0) = None ∧
          Db.id_taken (uuidv4 w 0) Sample.db = false) as H.
  { repeat split; try reflexivity; try (vm_compute; discriminate).
    apply list_elem_of_further, list_elem_of_here. }
  split; [exact H|].
  destruct H as (H1 & H2 & H3 & H4 & H5 & H6 & H7 & H8 & H9 & H10 & H11 & H12).
  split.
  - exact (proj2 (proj2 (generate_tier_default_and_case Sample.cfg Sample.js w req Sample.db "S" 7
             H1 (or_introl (conj H2 eq_refl)))) H6 H8 H10 H12).
  - exact (proj2 (proj2 (generate_tier_default_and_case Sample.cfg Sample.js w req' Sample.db "G" 30
             H3 (or_intror (ex_intro _ "g" (conj H4 (conj H5 eq_refl)))))) H7 H9 H11 H12).
Defined.

(** ** Activation of a known key *)

(** C8, as the code has it: [activate] on a known key, with a [days] value
    that [parseInt] reads and that gives a representable date, sets
    [active := true], overwrites [expires_at] with now + days * 86400 s
    whatever the old expiry was, and overwrites [owner_email] with the
    argument: with the supplied address when there is one, with NULL when it
    is omitted.  No other field and no other record changes. *)
Theorem activate_known_key cfg js w req (db : Store) k r d :
  requireAdmin cfg req = true →
  body_license req = Some k → k ≠ "" → db !! k = Some r →
  Js.parseInt js (default (Js.JNum 30) (body_days req)) = Some d →
  Z.abs (Date_now w 0 + d * 86400000) ≤ Js.max_time →
  let expiresAt := Date_now w 0 + d * 86400000 in
  activate cfg js w req db
  = (<[k := mkRow (id r) (key r) (tier r) (body_owner_email req) (created_at r)
                  (Some expiresAt) true (bound_ip r) (last_seen_ip r)
                  (last_validated r) (meta r)]> db,
     json (Activated k false expiresAt)).
Proof.
  intros Hadm Hq Hk Hdb Hd Hrange expiresAt. unfold activate, Db.select.
  rewrite Hadm, Hq, (truthy_text k Hk). simpl.
  rewrite Hd, expiry_Some by done. rewrite Hdb.
  by rewrite (update_present _ _ _ _ Hdb).
Qed.

Lemma activate_known_key_witness :
  let w := Sample.at_time 9000 in
  let req := Sample.admin_post "K" (Some (Js.JStr "2")) (Some "new@example.com") in
  (requireAdmin Sample.cfg req = true ∧ body_license req = Some "K" ∧ "K" ≠ "" ∧
   Sample.db !! "K" = Some Sample.row ∧
   Js.parseInt Sample.js (default (Js.JNum 30) (body_days req)) = Some 2 ∧
   Z.abs (Date_now w 0 + 2 * 86400000) ≤ Js.max_time) ∧
  activate Sample.cfg Sample.js w req Sample.db
  = (<["K" := mkRow "uuid-0" "K" "A" (Some "new@example.com") 100
                    (Some 172809000) true None None None None]> Sample.db,
     json (Activated "K" false 172809000)).
Proof.
  intros w req.
  assert (requireAdmin Sample.cfg req = true ∧ body_license req = Some "K" ∧ "K" ≠ "" ∧
          Sample.db !! "K" = Some Sample.row ∧
          Js.parseInt Sample.js (default (Js.JNum 30) (body_days req)) = Some 2 ∧
          Z.abs (Date_now w 0 + 2 * 86400000) ≤ Js.max_time) as H.
  { repeat split; try reflexivity; vm_compute; discriminate. }
  split; [exact H|].
  destruct H as (H1 & H2 & H3 & H4 & H5 & H6).
  exact (activate_known_key Sample.cfg Sample.js w req Sample.db "K" Sample.row 2
           H1 H2 H3 H4 H5 H6).
Defined.

(** C8 as stated fails: the record has an owner address, [activate] is
    called without [owner_email], and the stored address becomes NULL. *)
Lemma activate_without_email_clears_owner :
  let req := Sample.admin_post "K" (Some (Js.JNum 7)) None in
  let res := activate Sample.cfg Sample.js (Sample.at_time 1000) req Sample.db in
  body_owner_email req = None ∧
  owner_email <$> Sample.db !! "K" = Some (Some "owner@example.com") ∧
  res.2 = json (Activated "K" false 604801000) ∧
  owner_email <$> res.1 !! "K" = Some None ∧
  owner_email <$> res.1 !! "K" ≠ owner_email <$> Sample.db !! "K".
Proof. repeat split; try (vm_compute; reflexivity). vm_compute. discriminate. Qed.

(** ** Stored keys are never empty *)

Lemma makeKey_not_empty (js : Js.Builtins) (t : string) (bytes : list byte) : makeKey js t bytes ≠ "".
Proof. unfold makeKey. by destruct t. Qed.

Lemma insert_no_empty_key i k t email created expires (db db' : Store) :
  k ≠ "" → Db.insert i k t email created expires db = Some db' →
  db !! "" = None → db' !! "" = None.
Proof.
  intros Hk Hins Hdb. apply insert_fresh in Hins as [_ ->].
  by rewrite lookup_insert_ne.
Qed.

Lemma update_no_empty_key (f : Row → Row) (k : string) (db : Store) :
  db !! "" = None → Db.update f k db !! "" = None.
Proof.
  intros Hdb. unfold Db.update. rewrite lookup_alter.
  case_decide; [subst; by rewrite Hdb|done].
Qed.

(** Every route keeps the table free of a row with the empty key: the
    handlers refuse an empty [license], and a generated key contains the
    dash. *)
Lemma handle_no_empty_key cfg js rt w req (db : Store) :
  db !! "" = None → (handle cfg js rt w req db).1 !! "" = None.
Proof.
  intros H. destruct rt; simpl.
  - unfold generate. repeat case_match; simpl; try done.
    all: match goal with
         | Hins : Db.insert _ _ _ _ _ _ _ = Some _ |- _ =>
             by apply (insert_no_empty_key _ _ _ _ _ _ _ _ (makeKey_not_empty js _ _) Hins)
         end.
  - unfold activate.
    destruct (negb (requireAdmin cfg req)); [done|].
    destruct (Js.truthy (body_license req)) eqn:Ht; [|done]. simpl.
    apply truthy_Some in Ht as (k & -> & Hk). simpl.
    repeat case_match; simpl; try done.
    + by apply update_no_empty_key.
    + match goal with
      | Hins : Db.insert _ _ _ _ _ _ _ = Some _ |- _ =>
          by apply (insert_no_empty_key _ _ _ _ _ _ _ _ Hk Hins)
      end.
  - unfold renew. repeat case_match; simpl; try done. by apply update_no_empty_key.
  - unfold deactivate. repeat case_match; simpl; try done. by apply update_no_empty_key.
  - unfold info. by repeat case_match.
  - unfold validate. repeat case_match; simpl; try done;
      repeat apply update_no_empty_key; done.
  - done.
  - unfold wix_order. repeat case_match; simpl; try done.
    all: match goal with
         | Hins : Db.insert _ _ _ _ _ _ _ = Some _ |- _ =>
             by apply (insert_no_empty_key _ _ _ _ _ _ _ _ (makeKey_not_empty js _ _) Hins)
         end.
Qed.

Lemma serve_no_empty_key cfg js calls (db : Store) :
  db !! "" = None → (serve cfg js calls db).1 !! "" = None.
Proof.
  revert db. induction calls as [|[[rt w] req] calls IH]; intros db H; [done|].
  simpl. pose proof (handle_no_empty_key cfg js rt w req db H) as H1.
  destruct (handle cfg js rt w req db) as [db1 r1]. simpl in H1.
  specialize (IH db1 H1). by destruct (serve cfg js calls db1).
Qed.

(** * Further properties of the handlers *)

(** ** Configuration *)

(** X1: binding on first validation is on when BIND_IP_ON_FIRST_VALIDATE is
    unset, empty or exactly ["true"], and off for every other text. *)
Theorem loadConfig_binding (env : string → option string) :
  BIND_IP_ON_FIRST_VALIDATE (loadConfig env) = true ↔
  env "BIND_IP_ON_FIRST_VALIDATE" = None ∨
  env "BIND_IP_ON_FIRST_VALIDATE" = Some "" ∨
  env "BIND_IP_ON_FIRST_VALIDATE" = Some "true".
Proof.
  unfold loadConfig, Js.or_text. simpl.
  destruct (env "BIND_IP_ON_FIRST_VALIDATE") as [s|]; simpl.
  - destruct (String.eqb_spec s "") as [->|Hs]; simpl.
    + split; [auto|reflexivity].
    + rewrite String.eqb_eq. split.
      * intros ->. auto.
      * intros [H|[H|H]]; congruence.
  - split; [auto|reflexivity].
Qed.

(** ** The administrator gate *)

Lemma requireAdmin_true cfg req :
  requireAdmin cfg req = true ↔
  ∃ t, x_admin_token req = Some t ∧ t ≠ "" ∧ t = ADMIN_TOKEN cfg.
Proof.
  unfold requireAdmin. rewrite andb_true_iff, truthy_Some. split.
  - intros [(t & Ht & Hne) Heq]. exists t. rewrite Ht in Heq. simpl in Heq.
    apply String.eqb_eq in Heq. done.
  - intros (t & Ht & Hne & Heq). split; [eauto|].
    rewrite Ht. simpl. by apply String.eqb_eq.
Qed.

(** X2: a request to [/generate], [/activate], [/renew] or [/deactivate]
    whose [x-admin-token] header is missing or is not the configured token
    is answered 401 [unauthorized], and the table is not touched. *)
Theorem admin_routes_reject_wrong_token cfg js rt w req (db : Store) :
  rt ∈ admin_routes →
  x_admin_token req ≠ Some (ADMIN_TOKEN cfg) →
  handle cfg js rt w req db = (db, mkResponse 401 (Error "unauthorized")).
Proof.
  intros Hrt Htok.
  assert (requireAdmin cfg req = false) as Hadm.
  { destruct (requireAdmin cfg req) eqn:E; [|done].
    apply requireAdmin_true in E as (t & Ht & _ & ->). done. }
  unfold admin_routes in Hrt. rewrite !elem_of_cons, elem_of_nil in Hrt.
  destruct Hrt as [->|[->|[->|[->|[]]]]]; simpl;
    unfold generate, activate, renew, deactivate; by rewrite Hadm.
Qed.

Lemma admin_routes_reject_wrong_token_witness :
  let req := mkRequest (Some "guess") None None None None None None None None None
               (Some "K") None None None None in
  (POST_deactivate ∈ admin_routes ∧
   x_admin_token req ≠ Some (ADMIN_TOKEN Sample.cfg)) ∧
  handle Sample.cfg Sample.js POST_deactivate (Sample.at_time 1000) req Sample.db
  = (Sample.db, mkResponse 401 (Error "unauthorized")).
Proof.
  intros req.
  assert (POST_deactivate ∈ admin_routes ∧
          x_admin_token req ≠ Some (ADMIN_TOKEN Sample.cfg)) as H.
  { split; [|discriminate]. unfold admin_routes.
    do 3 apply list_elem_of_further. apply list_elem_of_here. }
  split; [exact H|]. destruct H as [H1 H2].
  exact (admin_routes_reject_wrong_token Sample.cfg Sample.js POST_deactivate
           (Sample.at_time 1000) req Sample.db H1 H2).
Defined.

(** X3: the configured administrator token is never empty; when
    ADMIN_TOKEN is unset or empty it is the built-in placeholder, so a
    request carrying ["admin-token-placeholder"] passes the gate. *)
Theorem default_admin_token (env : string → option string) req :
  ADMIN_TOKEN (loadConfig env) ≠ "" ∧
  (Js.truthy (env "ADMIN_TOKEN") = false →
   x_admin_token req = Some "admin-token-placeholder" →
   requireAdmin (loadConfig env) req = true).
Proof.
  unfold loadConfig, Js.or_text. simpl. split.
  - destruct (Js.truthy (env "ADMIN_TOKEN")) eqn:E; [|discriminate].
    apply truthy_Some in E as (s & -> & Hs). done.
  - intros Hf Htok. unfold requireAdmin. simpl. by rewrite Hf, Htok.
Qed.

Lemma default_admin_token_witness :
  let env : string → option string := λ _, None in
  let req := mkRequest (Some "admin-token-placeholder") None None None None None None
               None None None (Some "K") None None None None in
  (Js.truthy (env "ADMIN_TOKEN") = false ∧
   x_admin_token req = Some "admin-token-placeholder") ∧
  requireAdmin (loadConfig env) req = true.
Proof.
  intros env req.
  assert (Js.truthy (env "ADMIN_TOKEN") = false ∧
          x_admin_token req = Some "admin-token-placeholder") as H.
  { split; reflexivity. }
  split; [exact H|]. destruct H as [H1 H2].
  exact (proj2 (default_admin_token env req) H1 H2).
Defined.

(** ** Deactivation *)

(** X4: for an administrator, [/deactivate] of any non-empty license
    answers [ok]; on a stored key its only write is [active := false], on an
    unknown key it writes nothing; and deactivating again changes nothing
    more. *)
Theorem deactivate_tolerant_idempotent cfg req (db : Store) k :
  requireAdmin cfg req = true → body_license req = Some k → k ≠ "" →
  (deactivate cfg req db).2 = json (Deactivated k) ∧
  (∀ r, db !! k = Some r →
        (deactivate cfg req db).1 = <[k := set_active false r]> db) ∧
  (db !! k = None → (deactivate cfg req db).1 = db) ∧
  deactivate cfg req (deactivate cfg req db).1 = deactivate cfg req db.
Proof.
  intros Hadm Hq Hk. unfold deactivate.
  rewrite Hadm, Hq, (truthy_text k Hk). simpl. split; [done|]. split; [|split].
  - intros r Hr. by apply update_present.
  - intros Hr. by apply update_absent.
  - f_equal. unfold Db.update. apply map_eq. intros j.
    destruct (decide (k = j)) as [<-|Hne].
    + rewrite !lookup_alter_eq. by destruct (db !! k).
    + by rewrite !lookup_alter_ne.
Qed.

Lemma deactivate_tolerant_idempotent_witness :
  let req := Sample.admin_post "K" None None in
  (requireAdmin Sample.cfg req = true ∧ body_license req = Some "K" ∧ "K" ≠ "") ∧
  (deactivate Sample.cfg req Sample.db).2 = json (Deactivated "K") ∧
  (deactivate Sample.cfg req Sample.db).1 = <["K" := set_active false Sample.row]> Sample.db ∧
  deactivate Sample.cfg req (deactivate Sample.cfg req Sample.db).1
  = deactivate Sample.cfg req Sample.db.
Proof.
  intros req.
  assert (requireAdmin Sample.cfg req = true ∧ body_license req = Some "K" ∧ "K" ≠ "") as H.
  { repeat split; try reflexivity; discriminate. }
  split; [exact H|]. destruct H as (H1 & H2 & H3).
  pose proof (deactivate_tolerant_idempotent Sample.cfg req Sample.db "K" H1 H2 H3)
    as (Ha & Hb & _ & Hd).
  split; [exact Ha|]. split; [|exact Hd].
  apply (Hb Sample.row). reflexivity.
Defined.

(** ** Activation of an unknown key, renewal of a known one *)

Lemma id_taken_false i (db : Store) :
  Db.id_taken i db = false ↔ ∀ k r, db !! k = Some r → id r ≠ i.
Proof.
  unfold Db.id_taken. split.
  - intros H k r Hr Heq.
    assert (existsb (λ kr, String.eqb (id kr.2) i) (map_to_list db) = true) as Ht.
    { apply existsb_exists. exists (k, r). split.
      - apply list_elem_of_In. by apply elem_of_map_to_list.
      - simpl. by apply String.eqb_eq. }
    congruence.
  - intros H. destruct (existsb _ _) eqn:E; [|done].
    apply existsb_exists in E as ([k r] & Hin & Heq).
    apply list_elem_of_In, elem_of_map_to_list in Hin.
    simpl in Heq. apply String.eqb_eq in Heq. by destruct (H k r Hin).
Qed.

Lemma insert_ok i k t email created expires (db : Store) :
  db !! k = None → Db.id_taken i db = false →
  Db.insert i k t email created expires db
  = Some (<[k := mkRow i k t email created (Some expires) true None None None None]> db).
Proof. intros Hk Hi. unfold Db.insert. by rewrite Hk, Hi. Qed.

Lemma insert_id_taken i k t email created expires (db : Store) :
  Db.id_taken i db = true → Db.insert i k t email created expires db = None.
Proof. intros Hi. unfold Db.insert. rewrite Hi. by rewrite orb_true_r. Qed.

(** X5: for an administrator, [/activate] of a key that has no record
    creates one: tier ["S"], active, unbound, created at the second clock
    reading, expiring [days] days after the first, owned by the given address
    (or by nobody), and the answer carries [created: true].  When the drawn
    id is already used the INSERT fails: 500 and no record. *)
Theorem activate_unknown_key_creates cfg js w req (db : Store) k d :
  requireAdmin cfg req = true →
  body_license req = Some k → k ≠ "" → db !! k = None →
  Js.parseInt js (default (Js.JNum 30) (body_days req)) = Some d →
  Z.abs (Date_now w 0 + d * 86400000) ≤ Js.max_time →
  let expiresAt := Date_now w 0 + d * 86400000 in
  (Db.id_taken (uuidv4 w 0) db = false →
   activate cfg js w req db
   = (<[k := mkRow (uuidv4 w 0) k "S" (body_owner_email req) (Date_now w 1)
                   (Some expiresAt) true None None None None]> db,
      json (Activated k true expiresAt))) ∧
  (Db.id_taken (uuidv4 w 0) db = true →
   activate cfg js w req db = (db, mkResponse 500 (Error "server_error"))).
Proof.
  intros Hadm Hq Hk Hdb Hd Hrange expiresAt. unfold activate, Db.select.
  rewrite Hadm, Hq, (truthy_text k Hk). simpl.
  rewrite Hd, expiry_Some by done. rewrite Hdb. split; intros Hid.
  - by rewrite insert_ok.
  - by rewrite insert_id_taken.
Qed.

Lemma activate_unknown_key_creates_witness :
  let w := Sample.at_time 1000 in
  let req := Sample.admin_post "X-NEW" (Some (Js.JNum 7)) None in
  (requireAdmin Sample.cfg req = true ∧ body_license req = Some "X-NEW" ∧
   "X-NEW" ≠ "" ∧ Sample.db !! "X-NEW" = None ∧
   Js.parseInt Sample.js (default (Js.JNum 30) (body_days req)) = Some 7 ∧
   Z.abs (Date_now w 0 + 7 * 86400000) ≤ Js.max_time ∧
   Db.id_taken (uuidv4 w 0) Sample.db = false) ∧
  activate Sample.cfg Sample.js w req Sample.db
  = (<["X-NEW" := mkRow "uuid-1" "X-NEW" "S" None 1000 (Some 604801000) true
                    None None None None]> Sample.db,
     json (Activated "X-NEW" true 604801000)).
Proof.
  intros w req.
  assert (requireAdmin Sample.cfg req = true ∧ body_license req = Some "X-NEW" ∧
          "X-NEW" ≠ "" ∧ Sample.db !! "X-NEW" = None ∧
          Js.parseInt Sample.js (default (Js.JNum 30) (body_days req)) = Some 7 ∧
          Z.abs (Date_now w 0 + 7 * 86400000) ≤ Js.max_time ∧
          Db.id_taken (uuidv4 w 0) Sample.db = false) as H.
  { repeat split; try reflexivity; vm_compute; discriminate. }
  split; [exact H|]. destruct H as (H1 & H2 & H3 & H4 & H5 & H6 & H7).
  exact (proj1 (activate_unknown_key_creates Sample.cfg Sample.js w req Sample.db "X-NEW" 7
                  H1 H2 H3 H4 H5 H6) H7).
Defined.

(** X6: for an administrator, [/renew] of a stored key, with a [days]
    value that [parseInt] reads and that gives a representable date, sets
    [expires_at] to now + days * 86400 s and [active := true] and leaves
    every other column, [owner_email] and [bound_ip] included, and every
    other record as they were. *)
Theorem renew_known_key cfg js w req (db : Store) k r d :
  requireAdmin cfg req = true →
  body_license req = Some k → k ≠ "" → db !! k = Some r →
  Js.parseInt js (default (Js.JNum 30) (body_days req)) = Some d →
  Z.abs (Date_now w 0 + d * 86400000) ≤ Js.max_time →
  let expiresAt := Date_now w 0 + d * 86400000 in
  renew cfg js w req db
  = (<[k := mkRow (id r) (key r) (tier r) (owner_email r) (created_at r)
                  (Some expiresAt) true (bound_ip r) (last_seen_ip r)
                  (last_validated r) (meta r)]> db,
     json (Renewed k expiresAt)).
Proof.
  intros Hadm Hq Hk Hdb Hd Hrange expiresAt. unfold renew, Db.select.
  rewrite Hadm, Hq, (truthy_text k Hk). simpl.
  rewrite Hdb, Hd, expiry_Some by done.
  by rewrite (update_present _ _ _ _ Hdb).
Qed.

Lemma renew_known_key_witness :
  let w := Sample.at_time 9000 in
  let req := Sample.admin_post "K" None None in
  (requireAdmin Sample.cfg req = true ∧ body_license req = Some "K" ∧ "K" ≠ "" ∧
   Sample.db !! "K" = Some Sample.row ∧
   Js.parseInt Sample.js (default (Js.JNum 30) (body_days req)) = Some 30 ∧
   Z.abs (Date_now w 0 + 30 * 86400000) ≤ Js.max_time) ∧
  renew Sample.cfg Sample.js w req Sample.db
  = (<["K" := mkRow "uuid-0" "K" "A" (Some "owner@example.com") 100
                    (Some 2592009000) true None None None None]> Sample.db,
     json (Renewed "K" 2592009000)).
Proof.
  intros w req.
  assert (requireAdmin Sample.cfg req = true ∧ body_license req = Some "K" ∧ "K" ≠ "" ∧
          Sample.db !! "K" = Some Sample.row ∧
          Js.parseInt Sample.js (default (Js.JNum 30) (body_days req)) = Some 30 ∧
          Z.abs (Date_now w 0 + 30 * 86400000) ≤ Js.max_time) as H.
  { repeat split; try reflexivity; vm_compute; discriminate. }
  split; [exact H|]. destruct H as (H1 & H2 & H3 & H4 & H5 & H6).
  exact (renew_known_key Sample.cfg Sample.js w req Sample.db "K" Sample.row 30
           H1 H2 H3 H4 H5 H6).
Defined.

(** ** A [days] value that gives no date *)

Lemma expiry_None now (days : option Z) :
  days = None ∨ (∃ d, days = Some d ∧ Js.max_time < Z.abs (now + d * 86400000)) →
  expiry now days = None.
Proof.
  intros [->|(d & -> & Hd)]; [done|]. unfold expiry. simpl.
  destruct (Z.leb_spec (Z.abs (now + d * 86400000)) Js.max_time); [lia|done].
Qed.

(** X7: when [parseInt] reads no finite number from [days] (a text that
    does not start with a number, [null], a boolean), or reads one that puts
    the expiry out of the range of dates, [toISOString] throws:
    [/activate] answers 500 for a known and for an unknown key alike,
    [/renew] answers 500 for a known key, and nothing is written. *)
Theorem unusable_days_is_server_error cfg js w req (db : Store) k :
  requireAdmin cfg req = true → body_license req = Some k → k ≠ "" →
  let days := Js.parseInt js (default (Js.JNum 30) (body_days req)) in
  days = None ∨
  (∃ d, days = Some d ∧ Js.max_time < Z.abs (Date_now w 0 + d * 86400000)) →
  activate cfg js w req db = (db, mkResponse 500 (Error "server_error")) ∧
  (is_Some (db !! k) →
   renew cfg js w req db = (db, mkResponse 500 (Error "server_error"))).
Proof.
  intros Hadm Hq Hk days Hdays. apply expiry_None in Hdays.
  unfold activate, renew, Db.select.
  rewrite Hadm, Hq, (truthy_text k Hk). simpl. fold days. rewrite Hdays.
  split; [done|]. by intros [r ->].
Qed.

Lemma unusable_days_is_server_error_witness :
  let w := Sample.at_time 1000 in
  let req := Sample.admin_post "K" (Some Js.JNull) None in
  let req' := Sample.admin_post "K" (Some (Js.JStr "100000001")) None in
  (requireAdmin Sample.cfg req = true ∧ body_license req = Some "K" ∧ "K" ≠ "" ∧
   Js.parseInt Sample.js (default (Js.JNum 30) (body_days req)) = None ∧
   requireAdmin Sample.cfg req' = true ∧ body_license req' = Some "K" ∧
   Js.parseInt Sample.js (default (Js.JNum 30) (body_days req')) = Some 100000001 ∧
   Js.max_time < Z.abs (Date_now w 0 + 100000001 * 86400000) ∧
   is_Some (Sample.db !! "K")) ∧
  activate Sample.cfg Sample.js w req Sample.db
  = (Sample.db, mkResponse 500 (Error "server_error")) ∧
  renew Sample.cfg Sample.js w req' Sample.db
  = (Sample.db, mkResponse 500 (Error "server_error")).
Proof.
  intros w req req'.
  assert (requireAdmin Sample.cfg req = true ∧ body_license req = Some "K" ∧ "K" ≠ "" ∧
          Js.parseInt Sample.js (default (Js.JNum 30) (body_days req)) = None ∧
          requireAdmin Sample.cfg req' = true ∧ body_license req' = Some "K" ∧
          Js.parseInt Sample.js (default (Js.JNum 30) (body_days req')) = Some 100000001 ∧
          Js.max_time < Z.abs (Date_now w 0 + 100000001 * 86400000) ∧
          is_Some (Sample.db !! "K")) as H.
  { repeat split; try reflexivity; try discriminate. exists Sample.row. reflexivity. }
  split; [exact H|]. destruct H as (H1 & H2 & H3 & H4 & H5 & H6 & H7 & H8 & H9).
  split.
  - exact (proj1 (unusable_days_is_server_error Sample.cfg Sample.js w req Sample.db "K"
                    H1 H2 H3 (or_introl H4))).
  - exact (proj2 (unusable_days_is_server_error Sample.cfg Sample.js w req' Sample.db "K"
                    H5 H6 H3 (or_intror (ex_intro _ 100000001 (conj H7 H8)))) H9).
Defined.

(** ** When [validate] accepts *)

(** X8: [validate] of a non-empty license answers [valid=true] exactly
    when the record exists, is active, has not expired at the clock reading
    of the check, and is either unbound ([bound_ip] NULL or empty) or bound
    to the resolved address of the request. *)
Theorem validate_accepts_iff cfg js w req (db : Store) k :
  query_license req = Some k → k ≠ "" →
  body_valid (body (validate cfg js w req db).2) = Some true ↔
  ∃ r, db !! k = Some r ∧ active r = true ∧ expired r (Date_now w 1) = false ∧
       (Js.truthy (bound_ip r) = false ∨ bound_ip r = Some (getRequestIP js req)).
Proof.
  intros Hq Hk. unfold validate, Db.select.
  rewrite Hq, (truthy_text k Hk). simpl.
  destruct (db !! k) as [r|] eqn:Hdb; simpl.
  2:{ split; [discriminate|]. by intros (r & ? & _). }
  destruct (active r) eqn:Ha; simpl.
  2:{ split; [discriminate|]. intros (r' & [= <-] & ? & _). congruence. }
  destruct (expired r (Date_now w 1)) eqn:He; simpl.
  { split; [discriminate|]. intros (r' & [= <-] & _ & ? & _). congruence. }
  destruct (Js.truthy (bound_ip r)) eqn:Hb.
  - apply truthy_Some in Hb as (b & Hb & Hne). rewrite Hb. simpl.
    destruct (String.eqb_spec b (getRequestIP js req)) as [->|Hdiff]; simpl.
    + split; [|done]. intros _. exists r. rewrite Hb. auto.
    + split; [discriminate|]. intros (r' & [= <-] & _ & _ & [Hf|Heq]).
      * rewrite Hb in Hf. simpl in Hf.
        destruct (String.eqb_spec b ""); [done|discriminate].
      * congruence.
  - split.
    + intros _. exists r. auto.
    + intros _. by destruct (BIND_IP_ON_FIRST_VALIDATE cfg).
Qed.

Lemma validate_accepts_iff_witness :
  let w := Sample.at_time 1000 in
  let req := Sample.get_validate "K" "10.0.0.1" in
  (query_license req = Some "K" ∧ "K" ≠ "") ∧
  (body_valid (body (validate Sample.cfg Sample.js w req Sample.db).2) = Some true ↔
   ∃ r, Sample.db !! "K" = Some r ∧ active r = true ∧
        expired r (Date_now w 1) = false ∧
        (Js.truthy (bound_ip r) = false ∨ bound_ip r = Some (getRequestIP Sample.js req))).
Proof.
  intros w req.
  assert (query_license req = Some "K" ∧ "K" ≠ "") as H.
  { split; [reflexivity|discriminate]. }
  split; [exact H|]. destruct H as [H1 H2].
  exact (validate_accepts_iff Sample.cfg Sample.js w req Sample.db "K" H1 H2).
Defined.

(** X9: [validate] of an active, unexpired record from the address it is
    bound to answers [valid=true] with the record's tier, owner, expiry and
    bound address, and writes [last_seen_ip] and [last_validated] only. *)
Theorem validate_from_bound_address cfg js w req (db : Store) k r :
  query_license req = Some k → k ≠ "" →
  db !! k = Some r → active r = true → expired r (Date_now w 1) = false →
  bound_ip r = Some (getRequestIP js req) → getRequestIP js req ≠ "" →
  validate cfg js w req db
  = (<[k := mkRow (id r) (key r) (tier r) (owner_email r) (created_at r)
                  (expires_at r) (active r) (bound_ip r)
                  (Some (getRequestIP js req)) (Some (Date_now w 0)) (meta r)]> db,
     json (Valid (key r) (tier r) (owner_email r) (expires_at r) (getRequestIP js req))).
Proof.
  intros Hq Hk Hdb Ha He Hb Hip. unfold validate, Db.select.
  rewrite Hq, (truthy_text k Hk). simpl. rewrite Hdb, Ha, He. simpl.
  unfold Js.or_text. rewrite Hb, (truthy_text _ Hip). simpl.
  rewrite String.eqb_refl. simpl.
  rewrite (update_present _ _ _ _ Hdb). unfold set_last_seen. by rewrite Ha, Hb.
Qed.

Lemma validate_from_bound_address_witness :
  let w := Sample.at_time 2000 in
  let req := Sample.get_validate "K" "::ffff:10.0.0.1" in
  let bound := set_bound_ip (Some "10.0.0.1") Sample.row in
  let db : Store := {[ "K" := bound ]} in
  (query_license req = Some "K" ∧ "K" ≠ "" ∧ db !! "K" = Some bound ∧
   active bound = true ∧ expired bound (Date_now w 1) = false ∧
   bound_ip bound = Some (getRequestIP Sample.js req) ∧ getRequestIP Sample.js req ≠ "") ∧
  validate Sample.cfg Sample.js w req db
  = (<["K" := mkRow "uuid-0" "K" "A" (Some "owner@example.com") 100 (Some 5000) true
                    (Some "10.0.0.1") (Some "10.0.0.1") (Some 2000) None]> db,
     json (Valid "K" "A" (Some "owner@example.com") (Some 5000) "10.0.0.1")).
Proof.
  intros w req bound db.
  assert (query_license req = Some "K" ∧ "K" ≠ "" ∧ db !! "K" = Some bound ∧
          active bound = true ∧ expired bound (Date_now w 1) = false ∧
          bound_ip bound = Some (getRequestIP Sample.js req) ∧ getRequestIP Sample.js req ≠ "") as H.
  { repeat split; try reflexivity; vm_compute; discriminate. }
  split; [exact H|]. destruct H as (H1 & H2 & H3 & H4 & H5 & H6 & H7).
  exact (validate_from_bound_address Sample.cfg Sample.js w req db "K" bound H1 H2 H3 H4 H5 H6 H7).
Defined.

(** X10: with binding switched off, [validate] of an active, unexpired,
    unbound record answers [valid=true] and reports the requester's address
    in the [bound_ip] property of the answer, yet leaves the [bound_ip]
    column as it was: only [last_seen_ip] and [last_validated] are
    written. *)
Theorem validate_binding_disabled cfg js w req (db : Store) k r :
  BIND_IP_ON_FIRST_VALIDATE cfg = false →
  query_license req = Some k → k ≠ "" →
  db !! k = Some r → active r = true → expired r (Date_now w 1) = false →
  Js.truthy (bound_ip r) = false →
  validate cfg js w req db
  = (<[k := mkRow (id r) (key r) (tier r) (owner_email r) (created_at r)
                  (expires_at r) (active r) (bound_ip r)
                  (Some (getRequestIP js req)) (Some (Date_now w 0)) (meta r)]> db,
     json (Valid (key r) (tier r) (owner_email r) (expires_at r) (getRequestIP js req))).
Proof.
  intros Hc Hq Hk Hdb Ha He Hb. unfold validate, Db.select.
  rewrite Hq, (truthy_text k Hk). simpl. rewrite Hdb, Ha, He. simpl.
  unfold Js.or_text. rewrite Hb, Hc.
  rewrite (update_present _ _ _ _ Hdb). unfold set_last_seen. by rewrite Ha.
Qed.

Lemma validate_binding_disabled_witness :
  let cfg := mkConfig "secret" false "wix" in
  let w := Sample.at_time 1000 in
  let req := Sample.get_validate "K" "10.0.0.1" in
  (BIND_IP_ON_FIRST_VALIDATE cfg = false ∧ query_license req = Some "K" ∧ "K" ≠ "" ∧
   Sample.db !! "K" = Some Sample.row ∧ active Sample.row = true ∧
   expired Sample.row (Date_now w 1) = false ∧
   Js.truthy (bound_ip Sample.row) = false) ∧
  validate cfg Sample.js w req Sample.db
  = (<["K" := mkRow "uuid-0" "K" "A" (Some "owner@example.com") 100 (Some 5000) true
                    None (Some "10.0.0.1") (Some 1000) None]> Sample.db,
     json (Valid "K" "A" (Some "owner@example.com") (Some 5000) "10.0.0.1")).
Proof.
  intros cfg w req.
  assert (BIND_IP_ON_FIRST_VALIDATE cfg = false ∧ query_license req = Some "K" ∧
          "K" ≠ "" ∧ Sample.db !! "K" = Some Sample.row ∧ active Sample.row = true ∧
          expired Sample.row (Date_now w 1) = false ∧
          Js.truthy (bound_ip Sample.row) = false) as H.
  { repeat split; try reflexivity; discriminate. }
  split; [exact H|]. destruct H as (H1 & H2 & H3 & H4 & H5 & H6 & H7).
  exact (validate_binding_disabled cfg Sample.js w req Sample.db "K" Sample.row
           H1 H2 H3 H4 H5 H6 H7).
Defined.

(** ** What the write statements keep *)

Lemma truthy_default (o : option string) :
  Js.truthy o = true → default "" o ≠ "".
Proof. intros H. apply truthy_Some in H as (s & -> & Hs). done. Qed.

Lemma writes_update (f : Row → Row) (k : string) (db : Store) :
  (∀ r, same_identity r (f r)) → rtc write db (Db.update f k db).
Proof. intros H. apply rtc_once. by constructor. Qed.

Lemma writes_insert i k t email created expires (db db' : Store) :
  k ≠ "" → Db.insert i k t email created expires db = Some db' → rtc write db db'.
Proof. intros Hk H. apply rtc_once. by econstructor. Qed.

(** Every handler is a sequence of such writes. *)
Lemma handle_writes cfg js rt w req (db : Store) :
  rtc write db (handle cfg js rt w req db).1.
Proof.
  destruct rt; simpl.
  - unfold generate. repeat case_match; simpl; try apply rtc_refl.
    eapply writes_insert; [apply makeKey_not_empty|done].
  - unfold activate.
    destruct (negb (requireAdmin cfg req)); [apply rtc_refl|].
    destruct (Js.truthy (body_license req)) eqn:Ht; [|apply rtc_refl]. simpl.
    apply truthy_default in Ht.
    repeat case_match; simpl; try apply rtc_refl.
    + apply writes_update. by repeat split.
    + by eapply writes_insert.
  - unfold renew. repeat case_match; simpl; try apply rtc_refl.
    apply writes_update. by repeat split.
  - unfold deactivate. repeat case_match; simpl; try apply rtc_refl.
    apply writes_update. by repeat split.
  - unfold info. repeat case_match; apply rtc_refl.
  - unfold validate. repeat case_match; simpl; try apply rtc_refl.
    + apply writes_update. by repeat split.
    + apply writes_update. by repeat split.
    + etrans; apply writes_update; by repeat split.
    + apply writes_update. by repeat split.
  - apply rtc_refl.
  - unfold wix_order. repeat case_match; simpl; try apply rtc_refl.
    all: eapply writes_insert; [apply makeKey_not_empty|done].
Qed.

Lemma serve_writes cfg js calls (db : Store) :
  rtc write db (serve cfg js calls db).1.
Proof.
  revert db. induction calls as [|[[rt w] req] calls IH]; intros db; [apply rtc_refl|].
  simpl. pose proof (handle_writes cfg js rt w req db) as H1.
  destruct (handle cfg js rt w req db) as [db1 r1]. simpl in H1.
  specialize (IH db1). destruct (serve cfg js calls db1) as [db2 rs]. simpl in *.
  by etrans.
Qed.

Lemma update_lookup (f : Row → Row) (k j : string) (db : Store) :
  Db.update f k db !! j = (if decide (k = j) then f <$> db !! j else db !! j).
Proof. unfold Db.update. rewrite lookup_alter. by case_decide; subst. Qed.

Lemma same_identity_refl r : same_identity r r.
Proof. by repeat split. Qed.

Lemma same_identity_trans r1 r2 r3 :
  same_identity r1 r2 → same_identity r2 r3 → same_identity r1 r3.
Proof.
  intros (?&?&?&?&?) (?&?&?&?&?). repeat split; congruence.
Qed.

Lemma write_forward (db db' : Store) k r :
  write db db' → db !! k = Some r →
  ∃ r', db' !! k = Some r' ∧ same_identity r r'.
Proof.
  intros Hw Hr. destruct Hw as [f j db Hf|i j t email created expires db db' Hj Hins].
  - rewrite update_lookup. case_decide.
    + rewrite Hr. simpl. eauto.
    + rewrite Hr. eauto using same_identity_refl.
  - apply insert_fresh in Hins as [Hfree ->].
    exists r. split; [|apply same_identity_refl].
    rewrite lookup_insert_ne; [done|congruence].
Qed.

Lemma write_backward (db db' : Store) k r' :
  write db db' → db' !! k = Some r' →
  (∃ r, db !! k = Some r ∧ same_identity r r') ∨
  (db !! k = None ∧ key r' = k ∧ k ≠ "" ∧ ∀ j r, db !! j = Some r → id r ≠ id r').
Proof.
  intros Hw Hr. destruct Hw as [f j db Hf|i j t email created expires db db' Hj Hins].
  - left. rewrite update_lookup in Hr. case_decide.
    + destruct (db !! k) as [r|]; [|done]. injection Hr as <-. eauto.
    + eauto using same_identity_refl.
  - pose proof Hins as Hins'. apply insert_fresh in Hins as [Hfree ->].
    destruct (decide (j = k)) as [->|Hne].
    + right. rewrite lookup_insert_eq in Hr. injection Hr as <-. simpl.
      repeat split; try done. apply id_taken_false.
      unfold Db.insert in Hins'. destruct (Db.id_taken i db); [|done].
      by rewrite orb_true_r in Hins'.
    + left. rewrite lookup_insert_ne in Hr by done. eauto using same_identity_refl.
Qed.

Lemma write_keyed (db db' : Store) : write db db' → keyed db → keyed db'.
Proof.
  intros Hw Hk k r' Hr'.
  destruct (write_backward db db' k r' Hw Hr') as [(r & Hr & _ & Hkey & _)|(_ & ? & _)];
    [|done].
  rewrite Hkey. by apply Hk.
Qed.

Lemma write_unique_ids (db db' : Store) :
  write db db' → unique_ids db → unique_ids db'.
Proof.
  intros Hw Hu k1 k2 r1 r2 H1 H2 Hid.
  destruct (write_backward db db' k1 r1 Hw H1) as [(s1 & Hs1 & Hi1 & _)|(Hn1 & _ & _ & Hf1)];
  destruct (write_backward db db' k2 r2 Hw H2) as [(s2 & Hs2 & Hi2 & _)|(Hn2 & _ & _ & Hf2)].
  - apply (Hu k1 k2 s1 s2 Hs1 Hs2). congruence.
  - destruct (Hf2 k1 s1 Hs1). congruence.
  - destruct (Hf1 k2 s2 Hs2). congruence.
  - destruct Hw as [f j db Hf|i j t email created expires db db' Hj Hins].
    + rewrite update_lookup in H1. case_decide; [|congruence].
      rewrite Hn1 in H1. done.
    + apply insert_fresh in Hins as [_ ->].
      destruct (decide (j = k1)) as [<-|Hne1]; [|by rewrite lookup_insert_ne, Hn1 in H1].
      destruct (decide (j = k2)) as [<-|Hne2]; [done|].
      by rewrite lookup_insert_ne, Hn2 in H2.
Qed.

(** X11: whatever requests are served, in whatever order, a stored record
    is never deleted, and its [id], [key], [tier], [created_at] and [meta]
    never change. *)
Theorem serve_keeps_records cfg js calls (db : Store) k r :
  db !! k = Some r →
  ∃ r', (serve cfg js calls db).1 !! k = Some r' ∧ same_identity r r'.
Proof.
  intros Hr. pose proof (serve_writes cfg js calls db) as Hw.
  revert r Hr. induction Hw as [db|db db1 db2 Hstep _ IH]; intros r Hr.
  - eauto using same_identity_refl.
  - destruct (write_forward db db1 k r Hstep Hr) as (r1 & Hr1 & Hs1).
    destruct (IH r1 Hr1) as (r2 & Hr2 & Hs2).
    eauto using same_identity_trans.
Qed.

Lemma serve_keeps_records_witness :
  let calls :=
    [(GET_validate, Sample.at_time 1000, Sample.get_validate "K" "10.0.0.2");
     (POST_deactivate, Sample.at_time 1001, Sample.admin_post "K" None None);
     (POST_activate, Sample.at_time 1002, Sample.admin_post "K" (Some (Js.JNum 7)) None);
     (GET_generate, Sample.at_time 1003, Sample.admin_generate (Some "a") None)] in
  Sample.db !! "K" = Some Sample.row ∧
  ∃ r', (serve Sample.cfg Sample.js calls Sample.db).1 !! "K" = Some r' ∧
        same_identity Sample.row r'.
Proof.
  intros calls.
  assert (Sample.db !! "K" = Some Sample.row) as H by reflexivity.
  split; [exact H|].
  exact (serve_keeps_records Sample.cfg Sample.js calls Sample.db "K" Sample.row H).
Defined.

Lemma write_no_empty_key (db db' : Store) :
  write db db' → db !! "" = None → db' !! "" = None.
Proof.
  intros Hw He. destruct Hw as [f j db Hf|i j t email created expires db db' Hj Hins].
  - by apply update_no_empty_key.
  - by eapply insert_no_empty_key.
Qed.

Lemma writes_constraints (db db' : Store) :
  rtc write db db' →
  keyed db ∧ unique_ids db ∧ db !! "" = None →
  keyed db' ∧ unique_ids db' ∧ db' !! "" = None.
Proof.
  induction 1 as [db|db db1 db2 Hstep _ IH]; [done|].
  intros (Hk & Hu & He). apply IH. split; [|split].
  - by apply (write_keyed db).
  - by apply (write_unique_ids db).
  - by apply (write_no_empty_key db).
Qed.

(** X12: the constraints of the table are invariants of the application:
    if every row is stored under its own key, no two rows share an id and
    no row has the empty key, the same holds after any requests, served in
    any order.  They hold of the empty table. *)
Theorem serve_keeps_constraints cfg js calls (db : Store) :
  keyed db → unique_ids db → db !! "" = None →
  keyed (serve cfg js calls db).1 ∧ unique_ids (serve cfg js calls db).1 ∧
  (serve cfg js calls db).1 !! "" = None.
Proof.
  intros Hk Hu He. apply (writes_constraints db); [apply serve_writes|done].
Qed.

Lemma serve_keeps_constraints_witness :
  let calls :=
    [(GET_generate, Sample.at_time 1000, Sample.admin_generate (Some "a") None);
     (POST_activate, Sample.at_time 1002, Sample.admin_post "X-NEW" None None)] in
  let db : Store := ∅ in
  (keyed db ∧ unique_ids db ∧ db !! "" = None) ∧
  keyed (serve Sample.cfg Sample.js calls db).1 ∧ unique_ids (serve Sample.cfg Sample.js calls db).1 ∧
  (serve Sample.cfg Sample.js calls db).1 !! "" = None.
Proof.
  intros calls db.
  assert (keyed db ∧ unique_ids db ∧ db !! "" = None) as H.
  { subst db. split; [|split]; [intros k r Hr|intros k1 k2 r1 r2 Hr|reflexivity];
      by rewrite lookup_empty in Hr. }
  split; [exact H|]. destruct H as (H1 & H2 & H3).
  exact (serve_keeps_constraints Sample.cfg Sample.js calls db H1 H2 H3).
Defined.

(** ** The reach of one request *)

Lemma insert_keeps i j t email created expires (db db' : Store) k r :
  Db.insert i j t email created expires db = Some db' →
  db !! k = Some r → db' !! k = Some r.
Proof.
  intros Hins Hr. apply insert_fresh in Hins as [Hfree ->].
  rewrite lookup_insert_ne; [done|congruence].
Qed.

Lemma update_elsewhere (f : Row → Row) (o : option string) (db : Store) k r :
  Js.truthy o = true → o ≠ Some k → db !! k = Some r →
  Db.update f (default "" o) db !! k = Some r.
Proof.
  intros Ht Hne Hr. apply truthy_Some in Ht as (s & -> & _). simpl.
  rewrite update_lookup. case_decide; [congruence|done].
Qed.

Lemma update_keeps_none (f : Row → Row) (j k : string) (db : Store) :
  db !! k = None → Db.update f j db !! k = None.
Proof. intros H. rewrite update_lookup. case_decide; by rewrite H. Qed.

Lemma handle_frame cfg js rt w req (db : Store) k r :
  db !! k = Some r → addressed rt req ≠ Some k →
  (handle cfg js rt w req db).1 !! k = Some r.
Proof.
  intros Hr Hne. destruct rt; simpl in *.
  - unfold generate. repeat case_match; simpl; eauto using insert_keeps.
  - unfold activate.
    destruct (negb (requireAdmin cfg req)); [done|].
    destruct (Js.truthy (body_license req)) eqn:Ht; [|done]. simpl.
    repeat case_match; simpl; eauto using insert_keeps, update_elsewhere.
  - unfold renew.
    destruct (negb (requireAdmin cfg req)); [done|].
    destruct (Js.truthy (body_license req)) eqn:Ht; [|done]. simpl.
    repeat case_match; simpl; eauto using update_elsewhere.
  - unfold deactivate.
    destruct (negb (requireAdmin cfg req)); [done|].
    destruct (Js.truthy (body_license req)) eqn:Ht; [|done]. simpl.
    eauto using update_elsewhere.
  - unfold info. by repeat case_match.
  - unfold validate.
    destruct (Js.truthy (query_license req)) eqn:Ht; [|done]. simpl.
    pose proof Ht as Ht'. apply truthy_Some in Ht' as (s & Hs & _).
    assert (s ≠ k) as Hsk by congruence.
    rewrite Hs. simpl.
    repeat case_match; simpl; try done;
      rewrite ?update_lookup; repeat case_decide; done.
  - done.
  - unfold wix_order. repeat case_match; simpl; eauto using insert_keeps.
Qed.

Lemma handle_new_key cfg js rt w req (db : Store) k :
  db !! k = None → is_Some ((handle cfg js rt w req db).1 !! k) →
  rt = GET_generate ∨ rt = POST_wix_order ∨
  (rt = POST_activate ∧ body_license req = Some k).
Proof.
  intros Hk Hnew. destruct rt; simpl in *; auto.
  - right. right. split; [done|]. revert Hnew. unfold activate.
    destruct (negb (requireAdmin cfg req)); [by simpl; rewrite Hk; intros [? ?]|].
    destruct (Js.truthy (body_license req)) eqn:Ht;
      [|by simpl; rewrite Hk; intros [? ?]]. simpl.
    apply truthy_Some in Ht as (s & -> & _). simpl.
    repeat case_match; simpl; try (by rewrite Hk; intros [? ?]).
    + rewrite update_keeps_none by done. by intros [? ?].
    + match goal with
      | Hins : Db.insert _ _ _ _ _ _ _ = Some _ |- _ =>
          apply insert_fresh in Hins as [_ ->]
      end.
      destruct (decide (s = k)) as [->|Hne]; [done|].
      rewrite lookup_insert_ne by done. rewrite Hk. by intros [? ?].
  - exfalso. revert Hnew. unfold renew.
    repeat case_match; simpl; rewrite ?update_keeps_none by done;
      rewrite ?Hk; by intros [? ?].
  - exfalso. revert Hnew. unfold deactivate.
    repeat case_match; simpl; rewrite ?update_keeps_none by done;
      rewrite ?Hk; by intros [? ?].
  - exfalso. revert Hnew. unfold info.
    repeat case_match; simpl; rewrite ?Hk; by intros [? ?].
  - exfalso. revert Hnew. unfold validate.
    repeat case_match; simpl;
      rewrite ?update_keeps_none by (rewrite ?update_keeps_none; done);
      rewrite ?Hk; by intros [? ?].
  - exfalso. rewrite Hk in Hnew. by destruct Hnew.
Qed.

(** X13: the reach of one request.  [/validate], [/activate], [/renew] and
    [/deactivate] change no stored record other than the one their [license]
    parameter names; [/generate] and [/wix/order] change no stored record at
    all, they only insert; [/info] and [/] leave the whole table as it was;
    and a record appears under a key that was free only through
    [/generate], [/wix/order], or [/activate] of that very key. *)
Theorem handle_leaves_other_records cfg js rt w req (db : Store) :
  (∀ k r, db !! k = Some r → addressed rt req ≠ Some k →
          (handle cfg js rt w req db).1 !! k = Some r) ∧
  (rt = GET_info ∨ rt = GET_root → (handle cfg js rt w req db).1 = db) ∧
  (∀ k, db !! k = None → is_Some ((handle cfg js rt w req db).1 !! k) →
        rt = GET_generate ∨ rt = POST_wix_order ∨
        (rt = POST_activate ∧ body_license req = Some k)).
Proof.
  split; [|split].
  - intros k r. apply handle_frame.
  - intros [->| ->]; simpl; [|done]. unfold info. by repeat case_match.
  - intros k. apply handle_new_key.
Qed.

Lemma handle_leaves_other_records_witness :
  let other := mkRow "uuid-9" "K2" "G" None 50 (Some 9000) true None None None None in
  let db : Store := <["K2" := other]> Sample.db in
  let req := Sample.get_validate "K" "10.0.0.1" in
  let gen := Sample.admin_generate None None in
  let w := Sample.at_time 1000 in
  (db !! "K2" = Some other ∧ addressed GET_validate req ≠ Some "K2" ∧
   db !! "K" = Some Sample.row ∧ addressed GET_generate gen ≠ Some "K") ∧
  (handle Sample.cfg Sample.js GET_validate w req db).1 !! "K2" = Some other ∧
  (handle Sample.cfg Sample.js GET_generate w gen db).1 !! "K" = Some Sample.row ∧
  (handle Sample.cfg Sample.js GET_info w req db).1 = db.
Proof.
  intros other db req gen w.
  assert (db !! "K2" = Some other ∧ addressed GET_validate req ≠ Some "K2" ∧
          db !! "K" = Some Sample.row ∧ addressed GET_generate gen ≠ Some "K") as H.
  { repeat split; try reflexivity; discriminate. }
  split; [exact H|]. destruct H as (H1 & H2 & H3 & H4). split; [|split].
  - exact (proj1 (handle_leaves_other_records Sample.cfg Sample.js GET_validate w req db)
             "K2" other H1 H2).
  - exact (proj1 (handle_leaves_other_records Sample.cfg Sample.js GET_generate w gen db)
             "K" Sample.row H3 H4).
  - exact (proj1 (proj2 (handle_leaves_other_records Sample.cfg Sample.js GET_info w req db))
             (or_introl eq_refl)).
Defined.

(** X14: an answer with a status other than 200 (400, 401, 404 or 500)
    comes with no write at all: on a working store, the table is as it was
    before the request. *)
Theorem refusals_do_not_write cfg js rt w req (db : Store) :
  status (handle cfg js rt w req db).2 ≠ 200 →
  (handle cfg js rt w req db).1 = db.
Proof.
  destruct rt; simpl.
  - unfold generate. repeat case_match; simpl; done.
  - unfold activate. repeat case_match; simpl; done.
  - unfold renew. repeat case_match; simpl; done.
  - unfold deactivate. repeat case_match; simpl; done.
  - unfold info. repeat case_match; simpl; done.
  - unfold validate. repeat case_match; simpl; done.
  - done.
  - unfold wix_order. repeat case_match; simpl; done.
Qed.

Lemma refusals_do_not_write_witness :
  let req := Sample.admin_generate (Some "x") None in
  status (handle Sample.cfg Sample.js GET_generate (Sample.at_time 1000) req Sample.db).2 ≠ 200 ∧
  (handle Sample.cfg Sample.js GET_generate (Sample.at_time 1000) req Sample.db).1 = Sample.db.
Proof.
  intros req.
  assert (status (handle Sample.cfg Sample.js GET_generate (Sample.at_time 1000) req Sample.db).2
          ≠ 200) as H by (vm_compute; discriminate).
  split; [exact H|].
  exact (refusals_do_not_write Sample.cfg Sample.js GET_generate (Sample.at_time 1000) req
           Sample.db H).
Defined.

(** ** Reading [days] *)

Lemma digits_acc (d : Decimal.uint) (acc : positive) :
  Js.digits (Some (Z.pos acc)) (NilEmpty.string_of_uint d)
  = Some (Z.pos (Pos.of_uint_acc d acc)).
Proof.
  revert acc. induction d; intros acc; [done|..];
    cbn [NilEmpty.string_of_uint Js.digits];
    match goal with
    | |- context [Js.digit_of ?c] =>
        let v := eval vm_compute in (Js.digit_of c) in
        change (Js.digit_of c) with v
    end; cbn [from_option Pos.of_uint_acc Pos.of_uint]; unfold Datatypes.id;
    match goal with
    | |- Js.digits (Some ?z) _ = Some (Z.pos (Pos.of_uint_acc _ ?p)) =>
        replace z with (Z.pos p) by lia
    end; apply IHd.
Qed.

Lemma digits_zero (d : Decimal.uint) :
  Js.digits (Some 0) (NilEmpty.string_of_uint d) = Some (Z.of_uint d).
Proof.
  unfold Z.of_uint. induction d; [done|..];
    cbn [NilEmpty.string_of_uint Js.digits Pos.of_uint];
    match goal with
    | |- context [Js.digit_of ?c] =>
        let v := eval vm_compute in (Js.digit_of c) in
        change (Js.digit_of c) with v
    end; cbn [from_option Pos.of_uint_acc Pos.of_uint]; unfold Datatypes.id;
    first [ exact IHd | apply digits_acc ].
Qed.

Lemma digits_uint (d : Decimal.uint) :
  d ≠ Decimal.Nil →
  Js.digits None (NilEmpty.string_of_uint d) = Some (Z.of_uint d).
Proof.
  intros Hd. rewrite <- digits_zero.
  destruct d; [done|..]; reflexivity.
Qed.

Lemma leading_integer_uint (d : Decimal.uint) :
  d ≠ Decimal.Nil →
  Js.leading_integer (NilEmpty.string_of_uint d) = Some (Z.of_uint d).
Proof.
  intros Hd. rewrite <- digits_uint by done.
  destruct d; [done|..]; reflexivity.
Qed.

Lemma leading_integer_minus (s : string) :
  Js.leading_integer (String "-" s) = Z.opp <$> Js.digits None s.
Proof. reflexivity. Qed.

Lemma string_of_uint_nonnil (d : Decimal.uint) :
  d ≠ Decimal.Nil → NilZero.string_of_uint d = NilEmpty.string_of_uint d.
Proof. by destruct d. Qed.

Lemma string_of_uint_ascii (d : Decimal.uint) :
  Js.ascii_text (NilEmpty.string_of_uint d) = true.
Proof. induction d; [done|..]; simpl; exact IHd. Qed.

Lemma leading_integer_decimal (n : Z) :
  Js.ascii_text (NilZero.string_of_int (Z.to_int n)) = true ∧
  Js.leading_integer (NilZero.string_of_int (Z.to_int n)) = Some n.
Proof.
  destruct n as [|p|p]; [done|..]; simpl Z.to_int;
    unfold NilZero.string_of_int;
    pose proof (DecimalPos.Unsigned.to_uint_nonnil p) as Hnil;
    pose proof (DecimalPos.Unsigned.of_to p) as Hof;
    rewrite string_of_uint_nonnil by done.
  - split; [apply string_of_uint_ascii|].
    rewrite leading_integer_uint by done. unfold Z.of_uint. by rewrite Hof.
  - split; [apply (string_of_uint_ascii (Pos.to_uint p))|].
    rewrite leading_integer_minus, digits_uint by done.
    unfold Z.of_uint. by rewrite Hof.
Qed.

(** X15: a [days] value given as an integral JSON number between -(2^53-1)
    and 2^53-1, or as the decimal text of one, is read by [parseInt] as that
    integer. *)
Theorem parseInt_of_integer (js : Js.Builtins) (n : Z) :
  Z.abs n ≤ 9007199254740991 →
  Js.parseInt js (Js.JNum n) = Some n ∧
  Js.parseInt js (Js.JStr (NilZero.string_of_int (Z.to_int n))) = Some n.
Proof.
  intros Hn.
  assert (Js.is_safe n = true) as Hsafe.
  { unfold Js.is_safe, Js.MAX_SAFE_INTEGER. by apply Z.leb_le. }
  assert (Js.parseInt_text js (NilZero.string_of_int (Z.to_int n)) = Some n) as H.
  { destruct (leading_integer_decimal n) as [Ha Hl].
    unfold Js.parseInt_text. rewrite Ha, Hl. simpl. unfold Js.Number.
    by rewrite Hsafe. }
  split; [|exact H].
  unfold Js.parseInt, Js.ToString. by rewrite Hsafe.
Qed.

Lemma parseInt_of_integer_witness :
  (Z.abs 30 ≤ 9007199254740991 ∧ Z.abs (-7) ≤ 9007199254740991) ∧
  Js.parseInt Sample.js (Js.JNum 30) = Some 30 ∧ Js.parseInt Sample.js (Js.JStr "-7") = Some (-7).
Proof.
  assert (Z.abs 30 ≤ 9007199254740991 ∧ Z.abs (-7) ≤ 9007199254740991) as H.
  { split; vm_compute; discriminate. }
  split; [exact H|]. destruct H as [H1 H2]. split.
  - exact (proj1 (parseInt_of_integer Sample.js 30 H1)).
  - exact (proj2 (parseInt_of_integer Sample.js (-7) H2)).
Defined.

(** ** The form of a generated key *)

Lemma hex_byte_upper (b : byte) :
  let n := Byte.to_N b in
  is_upper_hex (Js.upper_ascii (Js.hex_digit (n / 16))) = true ∧
  is_upper_hex (Js.upper_ascii (Js.hex_digit (n mod 16))) = true ∧
  Byte.of_N (16 * unhex_digit (Js.upper_ascii (Js.hex_digit (n / 16)))
             + unhex_digit (Js.upper_ascii (Js.hex_digit (n mod 16)))) = Some b.
Proof. destruct b; vm_compute; done. Qed.

Lemma hex_byte_ascii (b : byte) :
  let n := Byte.to_N b in
  Js.is_ascii (Js.hex_digit (n / 16)) = true ∧
  Js.is_ascii (Js.hex_digit (n mod 16)) = true.
Proof. destruct b; vm_compute; done. Qed.

Lemma hex_ascii (bytes : list byte) : Js.ascii_text (Js.hex bytes) = true.
Proof.
  induction bytes as [|b bytes IH]; [done|].
  destruct (hex_byte_ascii b) as [H1 H2].
  cbn [Js.hex Js.ascii_text]. cbv zeta. by rewrite H1, H2, IH.
Qed.

Lemma toUpperCase_ascii (js : Js.Builtins) (s : string) :
  Js.ascii_text s = true → Js.toUpperCase js s = Js.upper_text s.
Proof. intros H. unfold Js.toUpperCase. by rewrite H. Qed.

Lemma trim_ascii (js : Js.Builtins) (s : string) :
  Js.ascii_text s = true → Js.trim js s = Js.trim_text s.
Proof. intros H. unfold Js.trim. by rewrite H. Qed.

Lemma hex_upper_spec (js : Js.Builtins) (bytes : list byte) :
  String.length (Js.toUpperCase js (Js.hex bytes)) = (2 * length bytes)%nat ∧
  all_chars is_upper_hex (Js.toUpperCase js (Js.hex bytes)) = true ∧
  unhex (Js.toUpperCase js (Js.hex bytes)) = bytes.
Proof.
  rewrite (toUpperCase_ascii js _ (hex_ascii bytes)).
  induction bytes as [|b bytes (IH1 & IH2 & IH3)]; [done|].
  destruct (hex_byte_upper b) as (H1 & H2 & H3).
  cbn [Js.hex Js.upper_text String.length all_chars unhex length].
  cbv zeta. rewrite H1, H2, H3, IH1, IH2, IH3. split; [lia|done].
Qed.

Lemma append_inj_l (t a b : string) : t +:+ a = t +:+ b → a = b.
Proof. induction t as [|c t IH]; simpl; [done|]. intros [= H]. by apply IH. Qed.

Lemma length_append (a b : string) :
  String.length (a +:+ b) = (String.length a + String.length b)%nat.
Proof. induction a as [|c a IH]; simpl; [done|]. by rewrite IH. Qed.

(** X16: a key made for tier [t] from the random bytes is [t], a dash, and
    two upper-case hexadecimal digits a byte: for the 12 bytes the handlers
    draw and a one-letter tier, 26 characters, of which the last 24 are in
    0-9 and A-F. *)
Theorem makeKey_format (js : Js.Builtins) (t : string) (bytes : list byte) :
  ∃ rand, makeKey js t bytes = t +:+ "-" +:+ rand ∧
          String.length rand = (2 * length bytes)%nat ∧
          all_chars is_upper_hex rand = true ∧
          String.length (makeKey js t bytes)
          = (String.length t + 1 + 2 * length bytes)%nat.
Proof.
  exists (Js.toUpperCase js (Js.hex bytes)).
  destruct (hex_upper_spec js bytes) as (H1 & H2 & _).
  unfold makeKey. cbv zeta. repeat split; try done.
  rewrite !length_append, H1. simpl. lia.
Qed.

(** X17: the key determines the random bytes it was made from: two draws
    give the same key of a tier only when the bytes are the same, and keys of
    different one-letter tiers never coincide. *)
Theorem makeKey_injective (js : Js.Builtins) (t t' : string) (bytes bytes' : list byte) :
  String.length t = 1%nat → String.length t' = 1%nat →
  makeKey js t bytes = makeKey js t' bytes' → t = t' ∧ bytes = bytes'.
Proof.
  intros Ht Ht' Heq. unfold makeKey in Heq. cbv zeta in Heq.
  destruct t as [|c [|? ?]]; try done. destruct t' as [|c' [|? ?]]; try done.
  simpl in Heq. injection Heq as -> Heq. split; [done|].
  apply (append_inj_l "") in Heq. apply (f_equal unhex) in Heq.
  destruct (hex_upper_spec js bytes) as (_ & _ & H1).
  destruct (hex_upper_spec js bytes') as (_ & _ & H2).
  by rewrite H1, H2 in Heq.
Qed.

Lemma makeKey_injective_witness :
  (String.length "S" = 1%nat ∧ String.length "S" = 1%nat ∧
   makeKey Sample.js "S" [x0a; xff; x00] = makeKey Sample.js "S" [x0a; xff; x00]) ∧
  "S" = "S" ∧ [x0a; xff; x00] = [x0a; xff; x00].
Proof.
  assert (String.length "S" = 1%nat ∧ String.length "S" = 1%nat ∧
          makeKey Sample.js "S" [x0a; xff; x00] = makeKey Sample.js "S" [x0a; xff; x00]) as H.
  { repeat split; reflexivity. }
  split; [exact H|]. destruct H as (H1 & H2 & H3).
  exact (makeKey_injective Sample.js "S" "S" [x0a; xff; x00] [x0a; xff; x00] H1 H2 H3).
Defined.

(** ** The address of the requester *)

Lemma split_head_first (e tail : string) :
  lacks "," e = true → (tail = "" ∨ ∃ rest, tail = String "," rest) →
  Js.split_head "," (e +:+ tail) = e.
Proof.
  intros He Htail. induction e as [|c e IH]; simpl in *.
  - destruct Htail as [->|(rest & ->)]; reflexivity.
  - apply andb_true_iff in He as [Hc He].
    destruct (Ascii.eqb c ","); [done|]. by rewrite IH.
Qed.

Lemma rev_string_twice (s acc b : string) :
  Js.rev_string b (Js.rev_string acc s) = Js.rev_string (s +:+ b) acc.
Proof.
  revert acc b. induction s as [|c s IH]; intros acc b; simpl; [done|].
  by rewrite IH.
Qed.

Lemma append_empty_r (s : string) : s +:+ "" = s.
Proof.
  induction s as [|c s IH]; [done|].
  change (String c (s +:+ "") = String c s). by rewrite IH.
Qed.

Lemma rev_string_all (p : ascii → bool) (s acc : string) :
  all_chars p s = true → all_chars p acc = true →
  all_chars p (Js.rev_string acc s) = true.
Proof.
  revert acc. induction s as [|c s IH]; intros acc Hs Hacc; simpl in *; [done|].
  apply andb_true_iff in Hs as [Hc Hs]. apply IH; [done|]. simpl. by rewrite Hc.
Qed.

Lemma trimStart_clean (s : string) :
  all_chars (λ c, negb (Js.is_space c)) s = true → Js.trimStart s = s.
Proof.
  destruct s as [|c s]; simpl; [done|]. intros H.
  apply andb_true_iff in H as [Hc _]. by destruct (Js.is_space c).
Qed.

Lemma trim_text_clean (s : string) :
  all_chars (λ c, negb (Js.is_space c)) s = true → Js.trim_text s = s.
Proof.
  intros H. unfold Js.trim_text. rewrite (trimStart_clean s H).
  rewrite trimStart_clean by (by apply rev_string_all).
  rewrite rev_string_twice. simpl. apply append_empty_r.
Qed.

(** X18: when a forwarded-address header is present, the requester's
    address is its first entry, trimmed: the [x-client-ip] header when it is
    not empty, else [x-forwarded-for]; the later entries of the list, the
    other header and the peer address of the connection play no part.  An
    ASCII entry without white space is taken as it is. *)
Theorem getRequestIP_first_entry (js : Js.Builtins) req (e tail : string) :
  lacks "," e = true → (tail = "" ∨ ∃ rest, tail = String "," rest) →
  e +:+ tail ≠ "" →
  x_client_ip req = Some (e +:+ tail) ∨
  (Js.truthy (x_client_ip req) = false ∧ x_forwarded_for req = Some (e +:+ tail)) →
  getRequestIP js req = Js.trim js e ∧
  (Js.ascii_text e = true →
   all_chars (λ c, negb (Js.is_space c)) e = true → getRequestIP js req = e).
Proof.
  intros He Htail Hne Hhdr.
  assert (getRequestIP js req = Js.trim js e) as H.
  { unfold getRequestIP.
    assert (Js.or_else (x_client_ip req) (x_forwarded_for req) = Some (e +:+ tail)) as ->.
    { unfold Js.or_else. destruct Hhdr as [->|[-> ->]]; [|done].
      by rewrite (truthy_text _ Hne). }
    rewrite (truthy_text _ Hne). simpl. by rewrite split_head_first. }
  split; [done|]. intros Hascii Hclean.
  by rewrite H, trim_ascii, trim_text_clean.
Qed.

Lemma getRequestIP_first_entry_witness :
  let req := mkRequest None (Some "") (Some "203.0.113.7, 10.0.0.8") None
               (Some "::ffff:10.0.0.1") None (Some "K")
               None None None None None None None None in
  (lacks "," "203.0.113.7" = true ∧
   (", 10.0.0.8" = "" ∨ ∃ rest, ", 10.0.0.8" = String "," rest) ∧
   "203.0.113.7" +:+ ", 10.0.0.8" ≠ "" ∧
   (x_client_ip req = Some ("203.0.113.7" +:+ ", 10.0.0.8") ∨
    (Js.truthy (x_client_ip req) = false ∧
     x_forwarded_for req = Some ("203.0.113.7" +:+ ", 10.0.0.8"))) ∧
   Js.ascii_text "203.0.113.7" = true ∧
   all_chars (λ c, negb (Js.is_space c)) "203.0.113.7" = true) ∧
  getRequestIP Sample.js req = "203.0.113.7".
Proof.
  intros req.
  assert (lacks "," "203.0.113.7" = true ∧
          (", 10.0.0.8" = "" ∨ ∃ rest, ", 10.0.0.8" = String "," rest) ∧
          "203.0.113.7" +:+ ", 10.0.0.8" ≠ "" ∧
          (x_client_ip req = Some ("203.0.113.7" +:+ ", 10.0.0.8") ∨
           (Js.truthy (x_client_ip req) = false ∧
            x_forwarded_for req = Some ("203.0.113.7" +:+ ", 10.0.0.8"))) ∧
          Js.ascii_text "203.0.113.7" = true ∧
          all_chars (λ c, negb (Js.is_space c)) "203.0.113.7" = true) as H.
  { split; [reflexivity|]. split; [right; by exists " 10.0.0.8"|].
    split; [discriminate|]. split; [right; split; reflexivity|].
    split; reflexivity. }
  split; [exact H|]. destruct H as (H1 & H2 & H3 & H4 & H5 & H6).
  exact (proj2 (getRequestIP_first_entry Sample.js req "203.0.113.7" ", 10.0.0.8"
                  H1 H2 H3 H4) H5 H6).
Defined.

(** X19: without a forwarded-address header the requester's address is the
    peer address, [req.ip] or else the remote address of the connection,
    with an IPv4-mapped prefix [::ffff:] taken off; when neither is known it
    is the empty text. *)
Theorem getRequestIP_peer (js : Js.Builtins) req :
  Js.truthy (x_client_ip req) = false → Js.truthy (x_forwarded_for req) = false →
  let peer := Js.or_text (Js.or_else (req_ip req) (remoteAddress req)) "" in
  (∀ v4, peer = "::ffff:" +:+ v4 → getRequestIP js req = v4) ∧
  (String.prefix "::ffff:" peer = false → getRequestIP js req = peer) ∧
  (Js.truthy (req_ip req) = false → Js.truthy (remoteAddress req) = false →
   getRequestIP js req = "").
Proof.
  intros Hc Hf peer.
  assert (getRequestIP js req
          = if Js.startsWith peer "::ffff:" then Js.replace "::ffff:" "" peer else peer) as H.
  { unfold getRequestIP, Js.or_else. by rewrite Hc, Hf. }
  rewrite H. split; [|split].
  - intros v4 ->. destruct v4; reflexivity.
  - intros Hp. unfold Js.startsWith. by rewrite Hp.
  - intros Hi Hr. unfold peer, Js.or_text, Js.or_else. by rewrite Hi, Hr.
Qed.

Lemma getRequestIP_peer_witness :
  let req := mkRequest None None (Some "") None None (Some "::ffff:192.0.2.4")
               (Some "K") None None None None None None None None in
  (Js.truthy (x_client_ip req) = false ∧ Js.truthy (x_forwarded_for req) = false ∧
   Js.or_text (Js.or_else (req_ip req) (remoteAddress req)) "" = "::ffff:" +:+ "192.0.2.4") ∧
  getRequestIP Sample.js req = "192.0.2.4".
Proof.
  intros req.
  assert (Js.truthy (x_client_ip req) = false ∧ Js.truthy (x_forwarded_for req) = false ∧
          Js.or_text (Js.or_else (req_ip req) (remoteAddress req)) ""
          = "::ffff:" +:+ "192.0.2.4") as H.
  { repeat split; reflexivity. }
  split; [exact H|]. destruct H as (H1 & H2 & H3).
  exact (proj1 (getRequestIP_peer Sample.js req H1 H2) "192.0.2.4" H3).
Defined.

(** ** Operations one after the other *)

Lemma not_expired_until (r : Row) (e now : Z) :
  expires_at r = Some e → now ≤ e → expired r now = false.
Proof. intros He Hle. unfold expired. rewrite He. by apply Z.ltb_ge. Qed.

Lemma validate_unbound_accepts cfg js w req (db : Store) k r :
  query_license req = Some k → k ≠ "" →
  db !! k = Some r → active r = true → expired r (Date_now w 1) = false →
  bound_ip r = None →
  (validate cfg js w req db).2
  = json (Valid (key r) (tier r) (owner_email r) (expires_at r) (getRequestIP js req)).
Proof.
  intros Hq Hk Hdb Ha He Hb. unfold validate, Db.select.
  rewrite Hq, (truthy_text k Hk). simpl. rewrite Hdb, Ha, He. simpl.
  rewrite Hb. simpl. by destruct (BIND_IP_ON_FIRST_VALIDATE cfg).
Qed.

(** X20: a license that [/generate] has just issued validates: whenever
    [/generate] answers with a license, that license is the key made for one
    of the tier letters S, G, A, and a [validate] of it at a clock reading
    not after its expiry answers [valid=true], with that tier letter, the
    owner and the expiry of the answer of [/generate], and the requester's
    address as bound address. *)
Theorem generate_then_validate
    cfg js w req (db : Store) license tname expiresAt generatedAt email w' req' :
  (generate cfg js w req db).2
  = json (Generated license tname expiresAt generatedAt email) →
  query_license req' = Some license → Date_now w' 1 ≤ expiresAt →
  ∃ t, t ∈ ["S"; "G"; "A"] ∧ tierName t = tname ∧
       license = makeKey js t (randomBytes w 0) ∧
       (validate cfg js w' req' (generate cfg js w req db).1).2
       = json (Valid license t email (Some expiresAt) (getRequestIP js req')).
Proof.
  intros Hgen Hq Hle. unfold generate in *.
  destruct (negb (requireAdmin cfg req)); [done|].
  destruct (Js.includes _ _) eqn:Hinc; [|done]. cbn [negb] in *.
  destruct (expiry _ _) as [e|]; [|done].
  destruct (Db.insert _ _ _ _ _ _ _) as [db'|] eqn:Hins; [|done].
  cbn [fst snd] in *. injection Hgen as <- <- <- <- <-.
  apply insert_fresh in Hins as [_ ->].
  exists (Js.toUpperCase js (Js.or_text (query_tier req) "S")). split.
  { unfold Js.includes in Hinc. apply existsb_exists in Hinc as (x & Hin & Heq).
    apply String.eqb_eq in Heq. rewrite Heq. by apply list_elem_of_In. }
  split; [reflexivity|]. split; [reflexivity|].
  match goal with
  | |- context [<[?K := ?R]> db] =>
      by rewrite (validate_unbound_accepts cfg js w' req' (<[K := R]> db) K R Hq
                    (makeKey_not_empty js _ _) (lookup_insert_eq _ _ _) eq_refl
                    (not_expired_until R e _ eq_refl Hle) eq_refl)
  end.
Qed.

Lemma generate_then_validate_witness :
  let w := Sample.at_time 1000 in
  let req := Sample.admin_generate (Some "a") (Some "1") in
  let w' := Sample.at_time 2000 in
  let req' := Sample.get_validate "A-0AFF00" "10.0.0.1" in
  ((generate Sample.cfg Sample.js w req Sample.db).2
   = json (Generated "A-0AFF00" "Aegis" 86401000 1000 None) ∧
   query_license req' = Some "A-0AFF00" ∧ Date_now w' 1 ≤ 86401000) ∧
  ∃ t, t ∈ ["S"; "G"; "A"] ∧ tierName t = "Aegis" ∧
       "A-0AFF00" = makeKey Sample.js t (randomBytes w 0) ∧
       (validate Sample.cfg Sample.js w' req' (generate Sample.cfg Sample.js w req Sample.db).1).2
       = json (Valid "A-0AFF00" t None (Some 86401000) (getRequestIP Sample.js req')).
Proof.
  intros w req w' req'.
  assert ((generate Sample.cfg Sample.js w req Sample.db).2
          = json (Generated "A-0AFF00" "Aegis" 86401000 1000 None) ∧
          query_license req' = Some "A-0AFF00" ∧ Date_now w' 1 ≤ 86401000) as H.
  { repeat split; try reflexivity. vm_compute. discriminate. }
  split; [exact H|]. destruct H as (H1 & H2 & H3).
  exact (generate_then_validate Sample.cfg Sample.js w req Sample.db "A-0AFF00" "Aegis"
           86401000 1000 None w' req' H1 H2 H3).
Defined.

(** X21: renewal revives a license: after an administrator's [/renew] of a
    stored key, whatever its state was (deactivated, expired), a [validate]
    made no later than the new expiry, from the bound address or of an
    unbound record, answers [valid=true]. *)
Theorem renew_then_validate cfg js w req (db : Store) k r d w' req' :
  requireAdmin cfg req = true →
  body_license req = Some k → k ≠ "" → db !! k = Some r →
  Js.parseInt js (default (Js.JNum 30) (body_days req)) = Some d →
  Z.abs (Date_now w 0 + d * 86400000) ≤ Js.max_time →
  query_license req' = Some k →
  Date_now w' 1 ≤ Date_now w 0 + d * 86400000 →
  Js.truthy (bound_ip r) = false ∨ bound_ip r = Some (getRequestIP js req') →
  body_valid (body (validate cfg js w' req' (renew cfg js w req db).1).2) = Some true.
Proof.
  intros Hadm Hq Hk Hdb Hd Hrange Hq' Hle Hbound.
  unfold renew, Db.select. rewrite Hadm, Hq, (truthy_text k Hk). simpl.
  rewrite Hdb, Hd, expiry_Some by done. rewrite (update_present _ _ _ _ Hdb).
  unfold validate, Db.select. rewrite Hq', (truthy_text k Hk). simpl.
  rewrite lookup_insert_eq. simpl.
  rewrite (not_expired_until _ (Date_now w 0 + d * 86400000)) by done.
  destruct Hbound as [Hf|Hb].
  - rewrite Hf. by destruct (BIND_IP_ON_FIRST_VALIDATE cfg).
  - rewrite Hb. simpl. rewrite String.eqb_refl.
    destruct (negb (getRequestIP js req' =? "")%string); simpl; [done|].
    by destruct (BIND_IP_ON_FIRST_VALIDATE cfg).
Qed.

Lemma renew_then_validate_witness :
  let lapsed := set_active false Sample.row in
  let db : Store := {[ "K" := lapsed ]} in
  let w := Sample.at_time 9000 in
  let req := Sample.admin_post "K" (Some (Js.JNum 1)) None in
  let w' := Sample.at_time 10000 in
  let req' := Sample.get_validate "K" "10.0.0.1" in
  (requireAdmin Sample.cfg req = true ∧ body_license req = Some "K" ∧ "K" ≠ "" ∧
   db !! "K" = Some lapsed ∧
   Js.parseInt Sample.js (default (Js.JNum 30) (body_days req)) = Some 1 ∧
   Z.abs (Date_now w 0 + 1 * 86400000) ≤ Js.max_time ∧
   query_license req' = Some "K" ∧
   Date_now w' 1 ≤ Date_now w 0 + 1 * 86400000 ∧
   Js.truthy (bound_ip lapsed) = false) ∧
  body_valid (body (validate Sample.cfg Sample.js w req' db).2) = Some false ∧
  body_valid (body (validate Sample.cfg Sample.js w' req' (renew Sample.cfg Sample.js w req db).1).2)
  = Some true.
Proof.
  intros lapsed db w req w' req'.
  assert (requireAdmin Sample.cfg req = true ∧ body_license req = Some "K" ∧ "K" ≠ "" ∧
          db !! "K" = Some lapsed ∧
          Js.parseInt Sample.js (default (Js.JNum 30) (body_days req)) = Some 1 ∧
          Z.abs (Date_now w 0 + 1 * 86400000) ≤ Js.max_time ∧
          query_license req' = Some "K" ∧
          Date_now w' 1 ≤ Date_now w 0 + 1 * 86400000 ∧
          Js.truthy (bound_ip lapsed) = false) as H.
  { repeat split; try reflexivity; vm_compute; discriminate. }
  split; [exact H|]. destruct H as (H1 & H2 & H3 & H4 & H5 & H6 & H7 & H8 & H9).
  split; [reflexivity|].
  exact (renew_then_validate Sample.cfg Sample.js w req db "K" lapsed 1 w' req'
           H1 H2 H3 H4 H5 H6 H7 H8 (or_introl H9)).
Defined.

(** X22: after an administrator's [/deactivate] of a stored key, every
    [validate] of that key, from any address and at any time, answers
    [valid=false], reason [deactivated], and writes nothing. *)
Theorem deactivate_then_validate
    cfg js req (db : Store) k r (later : list (Route * World * Request)) :
  requireAdmin cfg req = true → body_license req = Some k → k ≠ "" →
  db !! k = Some r → validations k later →
  serve cfg js later (deactivate cfg req db).1
  = ((deactivate cfg req db).1, (λ _, json (Decision false "deactivated")) <$> later).
Proof.
  intros Hadm Hq Hk Hdb Hlater.
  apply (serve_deactivated cfg js k later _ (set_active false r)); try done.
  unfold deactivate. rewrite Hadm, Hq, (truthy_text k Hk). simpl.
  rewrite (update_present _ _ _ _ Hdb). apply lookup_insert_eq.
Qed.

Lemma deactivate_then_validate_witness :
  let req := Sample.admin_post "K" None None in
  let later :=
    [(GET_validate, Sample.at_time 1000, Sample.get_validate "K" "10.0.0.1");
     (GET_validate, Sample.at_time 9000, Sample.get_validate "K" "10.0.0.2")] in
  (requireAdmin Sample.cfg req = true ∧ body_license req = Some "K" ∧ "K" ≠ "" ∧
   Sample.db !! "K" = Some Sample.row ∧ validations "K" later) ∧
  serve Sample.cfg Sample.js later (deactivate Sample.cfg req Sample.db).1
  = ((deactivate Sample.cfg req Sample.db).1,
     [json (Decision false "deactivated"); json (Decision false "deactivated")]).
Proof.
  intros req later.
  assert (requireAdmin Sample.cfg req = true ∧ body_license req = Some "K" ∧ "K" ≠ "" ∧
          Sample.db !! "K" = Some Sample.row ∧ validations "K" later) as H.
  { repeat split; try reflexivity; try discriminate; repeat constructor. }
  split; [exact H|]. destruct H as (H1 & H2 & H3 & H4 & H5).
  exact (deactivate_then_validate Sample.cfg Sample.js req Sample.db "K" Sample.row later
           H1 H2 H3 H4 H5).
Defined.

(** ** Orders and tiers *)



(** X24: for an administrator, [/generate] answers 400 [invalid tier]
    exactly when the [tier] parameter, upper-cased (["S"] when absent or
    empty), is not one of ["S"], ["G"], ["A"]; the full names of the tiers
    are refused. *)
Theorem generate_invalid_tier_iff cfg js w req (db : Store) :
  requireAdmin cfg req = true →
  (generate cfg js w req db = (db, mkResponse 400 (Error "invalid tier")) ↔
   Js.toUpperCase js (Js.or_text (query_tier req) "S") ∉ ["S"; "G"; "A"]) ∧
  (status (generate cfg js w req db).2 = 400 ↔
   Js.toUpperCase js (Js.or_text (query_tier req) "S") ∉ ["S"; "G"; "A"]).
Proof.
  intros Hadm. unfold generate. rewrite Hadm. cbn [negb].
  set (t := Js.toUpperCase js (Js.or_text (query_tier req) "S")).
  assert (Js.includes ["S"; "G"; "A"] t = true ↔ t ∈ ["S"; "G"; "A"]) as Hinc.
  { unfold Js.includes. rewrite existsb_exists. split.
    - intros (x & Hin & Heq). apply String.eqb_eq in Heq. subst x.
      by apply list_elem_of_In.
    - intros Hin. exists t. split; [by apply list_elem_of_In|apply String.eqb_refl]. }
  destruct (Js.includes ["S"; "G"; "A"] t) eqn:E; cbn [negb].
  - assert (t ∈ ["S"; "G"; "A"]) as Hin by (by apply Hinc).
    split; (split; [|done]); repeat case_match; simpl; intros Hres; discriminate Hres.
  - assert (t ∉ ["S"; "G"; "A"]) as Hnin.
    { intros Hin. apply Hinc in Hin. discriminate. }
    split; split; done.
Qed.

Lemma generate_invalid_tier_iff_witness :
  let req := Sample.admin_generate (Some "Sentinel") None in
  requireAdmin Sample.cfg req = true ∧
  generate Sample.cfg Sample.js (Sample.at_time 1000) req Sample.db
  = (Sample.db, mkResponse 400 (Error "invalid tier")).
Proof.
  intros req.
  assert (requireAdmin Sample.cfg req = true) as H by reflexivity.
  split; [exact H|].
  apply (proj1 (generate_invalid_tier_iff Sample.cfg Sample.js (Sample.at_time 1000) req
                  Sample.db H)).
  assert (Js.toUpperCase Sample.js (Js.or_text (query_tier req) "S") = "SENTINEL") as ->
    by reflexivity.
  rewrite !not_elem_of_cons. repeat split; try discriminate.
  apply not_elem_of_nil.
Defined.

(** * The in-memory prototype *)

Lemma find_license_Some (l : string) (storage : list Memory.Entry) :
  is_Some (Memory.find_license l storage) ↔ ∃ e, e ∈ storage ∧ Memory.license e = l.
Proof.
  unfold Memory.find_license. split.
  - intros [e He]. apply find_some in He as [Hin Heq].
    exists e. split; [by apply list_elem_of_In|by apply String.eqb_eq].
  - intros (e & Hin & Heq).
    destruct (find _ storage) as [e'|] eqn:E; [by exists e'|].
    apply list_elem_of_In in Hin. pose proof (find_none _ _ E e Hin) as Hf.
    simpl in Hf. by apply String.eqb_neq in Hf.
Qed.

(** X25: the in-memory [/validate] answers [valid: true] exactly when an
    entry with that license is in the array, and then [info] is such an
    entry; it never changes the array.  A license that [/generate] made
    is not stored, so it does not validate unless [/store] made it too. *)
Theorem memory_validate_iff (js : Js.Builtins) (l : string) (storage : list Memory.Entry) w type :
  l ≠ "" →
  (Memory.validate (Some l) storage).1 = storage ∧
  (∀ info, (Memory.validate (Some l) storage).2
           = Memory.json (Memory.Validity true l info) →
     ∃ e, info = Some e ∧ e ∈ storage ∧ Memory.license e = l) ∧
  ((∃ info, (Memory.validate (Some l) storage).2
            = Memory.json (Memory.Validity true l info)) ↔
   ∃ e, e ∈ storage ∧ Memory.license e = l) ∧
  Memory.validate (Some l) (Memory.generate js w type storage).1
  = Memory.validate (Some l) storage.
Proof.
  intros Hl. unfold Memory.validate. rewrite (truthy_text l Hl). simpl.
  split; [done|]. split; [|split].
  - intros info [= Hv <-].
    apply bool_decide_eq_true in Hv as [e He]. exists e. split; [done|].
    unfold Memory.find_license in He. apply find_some in He as [Hin Heq].
    split; [by apply list_elem_of_In|by apply String.eqb_eq].
  - rewrite <- find_license_Some. split.
    + intros (info & [= Hv _]). by apply bool_decide_eq_true in Hv.
    + intros Hs. exists (Memory.find_license l storage).
      by rewrite bool_decide_eq_true_2.
  - unfold Memory.generate. by repeat case_match.
Qed.

Lemma memory_validate_iff_witness :
  let e := Memory.mkEntry "S-0AFF00" (Memory.Own "Sentinel") 1000 in
  "S-0AFF00" ≠ "" ∧
  (Memory.validate (Some "S-0AFF00") [e]).1 = [e] ∧
  Memory.validate (Some "S-0AFF00")
    (Memory.generate Sample.js (Sample.at_time 1000) (Some "S") []).1
  = Memory.validate (Some "S-0AFF00") [].
Proof.
  intros e.
  assert ("S-0AFF00" ≠ "") as H by discriminate.
  split; [exact H|]. split.
  - exact (proj1 (memory_validate_iff Sample.js "S-0AFF00" [e] (Sample.at_time 1000) None H)).
  - exact (proj2 (proj2 (proj2 (memory_validate_iff Sample.js "S-0AFF00" []
                                  (Sample.at_time 1000) (Some "S") H)))).
Defined.




(** X27: what [/store] stores validates: when [/store] accepts the type it
    appends exactly one entry, holding the license of its answer, and a
    [/validate] of that license then answers [valid: true]; when no entry
    with that license was there before, [info] is the entry just stored. *)
Theorem memory_store_then_validate
    (js : Js.Builtins) w (type : string) (storage : list Memory.Entry) data :
  (Memory.store js w (Some type) storage).2 = Memory.json (Memory.Stored data) →
  Memory.license data ≠ "" →
  (Memory.store js w (Some type) storage).1 = (storage ++ [data])%list ∧
  (∃ e, (Memory.validate (Some (Memory.license data))
           (Memory.store js w (Some type) storage).1).2
        = Memory.json (Memory.Validity true (Memory.license data) (Some e)) ∧
        Memory.license e = Memory.license data) ∧
  ((∀ e, e ∈ storage → Memory.license e ≠ Memory.license data) →
   (Memory.validate (Some (Memory.license data))
      (Memory.store js w (Some type) storage).1).2
   = Memory.json (Memory.Validity true (Memory.license data) (Some data))).
Proof.
  intros Hst Hne. unfold Memory.store in *.
  destruct (negb (Js.truthy (Some type))); [done|].
  destruct (Memory.LICENSE_TYPES _) as [t|]; [|done].
  cbv zeta in *. cbn [fst snd from_option] in *. unfold Datatypes.id in *.
  injection Hst as Hd. rewrite Hd.
  split; [done|]. unfold Memory.validate. rewrite (truthy_text _ Hne).
  cbn [negb fst snd from_option]. unfold Datatypes.id.
  assert (is_Some (Memory.find_license (Memory.license data) (storage ++ [data]))) as [e He].
  { apply find_license_Some. exists data. split; [|done].
    apply elem_of_app. right. apply list_elem_of_here. }
  split.
  - exists e. rewrite He. rewrite bool_decide_eq_true_2 by by eexists.
    split; [done|]. unfold Memory.find_license in He.
    apply find_some in He as [_ Heq]. by apply String.eqb_eq in Heq.
  - intros Hfresh. rewrite He. rewrite bool_decide_eq_true_2 by by eexists.
    do 3 f_equal. unfold Memory.find_license in He.
    apply find_some in He as [Hin Heq]. apply String.eqb_eq in Heq.
    apply list_elem_of_In, elem_of_app in Hin as [Hin|Hin].
    + by destruct (Hfresh e Hin).
    + apply list_elem_of_singleton in Hin. by subst.
Qed.

Lemma memory_store_then_validate_witness :
  let w := Sample.at_time 1000 in
  let data := Memory.mkEntry "G-0AFF00" (Memory.Own "Guardian") 1000 in
  ((Memory.store Sample.js w (Some "G") []).2 = Memory.json (Memory.Stored data) ∧
   Memory.license data ≠ "") ∧
  (Memory.store Sample.js w (Some "G") []).1 = [data] ∧
  (Memory.validate (Some "G-0AFF00") (Memory.store Sample.js w (Some "G") []).1).2
  = Memory.json (Memory.Validity true "G-0AFF00" (Some data)).
Proof.
  intros w data.
  assert ((Memory.store Sample.js w (Some "G") []).2 = Memory.json (Memory.Stored data) ∧
          Memory.license data ≠ "") as H.
  { split; [reflexivity|discriminate]. }
  split; [exact H|]. destruct H as [H1 H2].
  pose proof (memory_store_then_validate Sample.js w "G" [] data H1 H2) as (Ha & _ & Hc).
  split; [exact Ha|]. apply Hc. intros e He. by apply elem_of_nil in He.
Defined.

(** * The prototype with a set of saved keys *)

Lemma bearer_not_empty (SECRET : option string) : Saved.bearer SECRET ≠ "".
Proof. done. Qed.

Lemma hex_not_empty (bytes : list byte) : bytes ≠ [] → Js.hex bytes ≠ "".
Proof. by destruct bytes. Qed.

(** X28: [/generate] of the set-based prototype lets a request through
    exactly when its [authorization] header is ["Bearer "] followed by the
    secret; every other request is answered 403 and saves nothing.  When
    LICENSE_SECRET is unset the accepted header is ["Bearer undefined"]. *)
Theorem saved_generate_gate (SECRET : option string) w (auth : option string)
    (saved : gset string) :
  (auth ≠ Some (Saved.bearer SECRET) ↔
   Saved.generate SECRET w auth saved
   = (saved, Saved.mkResponse 403 (Saved.Error "Unauthorized"))) ∧
  (auth = Some (Saved.bearer SECRET) →
   Saved.status (Saved.generate SECRET w auth saved).2 = 200) ∧
  Saved.bearer None = "Bearer undefined".
Proof.
  unfold Saved.generate. split; [|split; [|done]].
  - destruct auth as [a|]; simpl; [|by split].
    destruct (String.eqb_spec a "") as [->|Ha]; simpl.
    { split; [done|]. intros _ [= H]. }
    destruct (String.eqb_spec a (Saved.bearer SECRET)) as [->|Hb]; simpl.
    + split; [done|discriminate].
    + split; [done|]. intros _ [= ?]. done.
  - intros ->. rewrite (truthy_text _ (bearer_not_empty SECRET)). simpl.
    by rewrite String.eqb_refl.
Qed.

Lemma saved_generate_gate_witness :
  let w := Sample.at_time 1000 in
  (Some "Bearer undefined" = Some (Saved.bearer None) ∧
   Some "Bearer guess" ≠ Some (Saved.bearer (Some "s3cret"))) ∧
  Saved.status (Saved.generate None w (Some "Bearer undefined") ∅).2 = 200 ∧
  Saved.generate (Some "s3cret") w (Some "Bearer guess") ∅
  = (∅, Saved.mkResponse 403 (Saved.Error "Unauthorized")).
Proof.
  intros w.
  assert (Some "Bearer undefined" = Some (Saved.bearer None) ∧
          Some "Bearer guess" ≠ Some (Saved.bearer (Some "s3cret"))) as H.
  { split; [reflexivity|discriminate]. }
  split; [exact H|]. destruct H as [H1 H2]. split.
  - exact (proj1 (proj2 (saved_generate_gate None w (Some "Bearer undefined") ∅)) H1).
  - exact (proj1 (proj1 (saved_generate_gate (Some "s3cret") w (Some "Bearer guess") ∅)) H2).
Defined.

(** X29: a key that the set-based [/generate] has issued verifies: an
    authorised request saves the lower-case hexadecimal text of the random
    bytes and answers with it, [/verify] of that key then answers
    [valid: true], every key saved before is still saved, and [/verify]
    itself saves nothing and answers [valid: true] only for saved keys. *)
Theorem saved_generate_then_verify (SECRET : option string) w (saved : gset string) :
  randomBytes w 0 ≠ [] →
  let key := Js.hex (randomBytes w 0) in
  let saved' := (Saved.generate SECRET w (Some (Saved.bearer SECRET)) saved).1 in
  (Saved.generate SECRET w (Some (Saved.bearer SECRET)) saved).2
  = Saved.json (Saved.License key) ∧
  Saved.verify (Some key) saved' = (saved', Saved.json (Saved.Verdict true)) ∧
  saved ⊆ saved' ∧
  (∀ l, l ≠ "" →
     Saved.verify (Some l) saved
     = (saved, Saved.json (Saved.Verdict (bool_decide (l ∈ saved))))).
Proof.
  intros Hb key saved'.
  assert (Saved.generate SECRET w (Some (Saved.bearer SECRET)) saved
          = ({[ key ]} ∪ saved, Saved.json (Saved.License key))) as Hgen.
  { unfold Saved.generate. rewrite (truthy_text _ (bearer_not_empty SECRET)). simpl.
    by rewrite String.eqb_refl. }
  unfold saved'. rewrite Hgen. simpl. split; [done|]. split; [|split].
  - unfold Saved.verify. rewrite (truthy_text key (hex_not_empty _ Hb)). simpl.
    rewrite bool_decide_eq_true_2; [done|set_solver].
  - set_solver.
  - intros l Hl. unfold Saved.verify. rewrite (truthy_text l Hl). simpl.
    by case_bool_decide.
Qed.

Lemma saved_generate_then_verify_witness :
  let w := Sample.at_time 1000 in
  let saved : gset string := {[ "00aa" ]} in
  let saved' := (Saved.generate (Some "s3cret") w (Some "Bearer s3cret") saved).1 in
  randomBytes w 0 ≠ [] ∧
  (Saved.generate (Some "s3cret") w (Some "Bearer s3cret") saved).2
  = Saved.json (Saved.License "0aff00") ∧
  Saved.verify (Some "0aff00") saved' = (saved', Saved.json (Saved.Verdict true)) ∧
  saved ⊆ saved'.
Proof.
  intros w saved saved'.
  assert (randomBytes w 0 ≠ []) as H by discriminate.
  split; [exact H|].
  pose proof (saved_generate_then_verify (Some "s3cret") w saved H) as (Ha & Hb & Hc & _).
  split; [exact Ha|]. split; [exact Hb|exact Hc].
Defined.
